(** * SimpliCam accessory (src/accessories/simplicam.js)

    A shallow embedding of the [SS3SimpliCam] class: the session maps, the
    transcoder argument builder with its override merge, the snapshot
    gate, the transcoder process handlers and the event subscription with
    its backoff counter.

    Conventions of the embedding.
    - JavaScript numbers that the class handles are integers (ports,
      widths, bit rates, SSRCs, counters, milliseconds); they are [Z].
    - [undefined] is [None] for an optional field, [VUndef] inside an
      argument pair.
    - A string is the sequence of the bytes of its UTF-8 encoding.
    - The class is event driven.  Every method and every handler that the
      class registers is a function from the accessory state to the
      accessory state; whatever the environment decides (clock, DNS
      answer, random bytes, result of a fetch) is an argument of that
      function.  What the class does to the outside (callbacks, spawn,
      kill, fetch, timers) is appended to a trace carried by the state.
    - Debug and error logging is not part of the trace. *)

From Stdlib Require Import ZArith List String Ascii Bool Lia.
From Stdlib Require Import Strings.Byte.
From stdpp Require Import gmap strings list fin_maps pretty.
Import ListNotations.

Local Open Scope string_scope.
Local Open Scope list_scope.
Local Open Scope Z_scope.

(** ** JavaScript values that occur in argument pairs *)

Inductive jsval :=
| VStr (s : string)
| VNum (n : Z)
| VBool (b : bool)
| VNull
| VUndef.

(** [a === b] on the values above. *)
Definition strict_eq (a b : jsval) : bool :=
  match a, b with
  | VStr s, VStr t => String.eqb s t
  | VNum n, VNum m => Z.eqb n m
  | VBool x, VBool y => Bool.eqb x y
  | VNull, VNull => true
  | VUndef, VUndef => true
  | _, _ => false
  end.

(** [value === false] *)
Definition is_false (v : jsval) : bool := strict_eq v (VBool false).

(** An argument is a JavaScript array such as [['-vf', 'scale=1280:-2']]
    or [['-re']]; an argument group is an array of them. *)
Definition arg := list jsval.
Definition arg_group := list arg.

(** [arg[0] === key] (also [arg[0] == key]: both sides are strings
    wherever the class compares them). *)
Definition flag_is (key : string) (a : arg) : bool :=
  match a with
  | v :: _ => strict_eq v (VStr key)
  | [] => false
  end.

(** [a[1] = v].  Writing index 1 of a one-element array extends it. *)
Definition set1 (v : jsval) (a : arg) : arg :=
  match a with
  | [] => [VUndef; v]
  | f :: rest => f :: v :: tl rest
  end.

(** [let e = args.find(arg => arg[0] === key); e[1] = v]: the first
    argument carrying the flag is mutated in place.  Nothing else holds a
    reference to the argument arrays of a group, so the mutation is the
    replacement of that element of the group. *)
Fixpoint alter_first (key : string) (f : arg -> arg) (args : arg_group)
  : arg_group :=
  match args with
  | [] => []
  | a :: rest =>
      if flag_is key a then f a :: rest
      else a :: alter_first key f rest
  end.

Definition set_first (key : string) (v : jsval) (args : arg_group) : arg_group :=
  alter_first key (set1 v) args.

(** [args.filter(arg => arg[0] !== key)] *)
Definition drop_flag (key : string) (args : arg_group) : arg_group :=
  List.filter (fun a => negb (flag_is key a)) args.

(** ** Override merge (lines 450-502)

    An override map is the list of its entries in [for ... in] order; the
    keys of a JavaScript object are pairwise distinct.  New source flags
    are put in front ([unshift]), new video and audio flags at the end
    ([push]). *)

Definition options := list (string * jsval).

Inductive position := Front | Back.

Definition merge_step (pos : position) (args : arg_group) (kv : string * jsval)
  : arg_group :=
  let '(key, value) := kv in
  match List.find (flag_is key) args with
  | Some _ =>
      if is_false value then drop_flag key args
      else set_first key value args
  | None =>
      match pos with
      | Front => [VStr key; value] :: args
      | Back => args ++ [[VStr key; value]]
      end
  end.

Definition merge (pos : position) (opts : options) (args : arg_group)
  : arg_group :=
  fold_left (merge_step pos) opts args.

Definition no_removal (opts : options) : Prop :=
  Forall (fun kv => is_false (snd kv) = false) opts.

Definition distinct_keys (opts : options) : Prop :=
  List.NoDup (map fst opts).

(** ** Strings and buffers *)

(** [`${n}`] for an integer (below 10^21, where JavaScript prints plain
    decimal digits). *)
Definition show_num (n : Z) : string := pretty n.

(** [`${x}`] for a value that may be [undefined]. *)
Definition show_opt (o : option string) : string :=
  match o with Some s => s | None => "undefined" end.

(** [s.replace(pat, rep)] with a string pattern: the first occurrence. *)
Fixpoint replace_first (pat rep s : string) : string :=
  if String.prefix pat s
  then rep +:+ String.substring (String.length pat)
                 (String.length s - String.length pat) s
  else match s with
       | EmptyString => EmptyString
       | String c r => String c (replace_first pat rep r)
       end.

(** [s.split(sep)] for a one-character separator. *)
Fixpoint split (sep : ascii) (s : string) : list string :=
  match s with
  | EmptyString => [EmptyString]
  | String c r =>
      if Ascii.eqb c sep then EmptyString :: split sep r
      else match split sep r with
           | h :: t => String c h :: t
           | [] => [String c EmptyString]
           end
  end.

Definition nonempty (s : string) : bool :=
  match s with EmptyString => false | _ => true end.

(** White space removed by [trim]: WhiteSpace and LineTerminator of
    ECMAScript, by their UTF-8 encoding.  One byte: U+0009 to U+000D and
    U+0020. *)
Definition is_ws (c : ascii) : bool :=
  let n := nat_of_ascii c in
  ((9 <=? n) && (n <=? 13))%nat || (n =? 32)%nat.

(** Two bytes: U+00A0. *)
Definition is_ws2 (c1 c2 : ascii) : bool :=
  ((nat_of_ascii c1 =? 194) && (nat_of_ascii c2 =? 160))%nat.

(** Three bytes: U+1680, U+2000 to U+200A, U+2028, U+2029, U+202F,
    U+205F, U+3000 and U+FEFF. *)
Definition is_ws3 (c1 c2 c3 : ascii) : bool :=
  let a := nat_of_ascii c1 in
  let b := nat_of_ascii c2 in
  let c := nat_of_ascii c3 in
  ((a =? 225) && (b =? 154) && (c =? 128)
   || (a =? 226) && (b =? 128)
      && ((128 <=? c) && (c <=? 138) || (c =? 168) || (c =? 169) || (c =? 175))
   || (a =? 226) && (b =? 129) && (c =? 159)
   || (a =? 227) && (b =? 128) && (c =? 128)
   || (a =? 239) && (b =? 187) && (c =? 191))%nat.

(** Drop the white space a string starts with.  With [backwards] the
    string is a reversed one, and so are the bytes of a character. *)
Fixpoint strip_ws (backwards : bool) (s : string) : string :=
  match s with
  | String c1 r1 =>
      if is_ws c1 then strip_ws backwards r1
      else
        match r1 with
        | String c2 r2 =>
            if (if backwards then is_ws2 c2 c1 else is_ws2 c1 c2)
            then strip_ws backwards r2
            else
              match r2 with
              | String c3 r3 =>
                  if (if backwards then is_ws3 c3 c2 c1 else is_ws3 c1 c2 c3)
                  then strip_ws backwards r3
                  else s
              | EmptyString => s
              end
        | EmptyString => s
        end
  | EmptyString => EmptyString
  end.

Definition trim_start (s : string) : string := strip_ws false s.

Definition trim_end (s : string) : string :=
  String.rev (strip_ws true (String.rev s)).

Definition trim (s : string) : string := trim_end (trim_start s).

Definition byte_val (b : byte) : Z := Z.of_N (Byte.to_N b).

(** [x << 24] and the like: the result of a shift is a two's complement
    32-bit integer. *)
Definition int32 (x : Z) : Z :=
  let m := x mod 2 ^ 32 in
  if m <? 2 ^ 31 then m else m - 2 ^ 32.

(** [buf.readInt32BE(off)]: four bytes, most significant first, as Node
    computes it, [(first << 24) + second * 2 ** 16 + third * 2 ** 8 + last];
    [None] is the RangeError of a read past the end. *)
Definition readInt32BE (buf : list byte) (off : nat) : option Z :=
  match skipn off buf with
  | first :: second :: third :: last :: _ =>
      Some (int32 (Z.shiftl (byte_val first) 24)
            + byte_val second * 2 ^ 16
            + byte_val third * 2 ^ 8
            + byte_val last)
  | _ => None
  end.

(** [buf.toString('base64')] *)
Definition b64_alphabet : string :=
  "ABCDEFGHIJKLMNOPQRSTUVWXYZabcdefghijklmnopqrstuvwxyz0123456789+/".

Definition b64_digit (n : Z) : string :=
  match String.get (Z.to_nat n) b64_alphabet with
  | Some c => String c EmptyString
  | None => EmptyString
  end.

Fixpoint base64 (bs : list byte) : string :=
  match bs with
  | [] => EmptyString
  | [a] =>
      let n := byte_val a * 16 in
      b64_digit (n / 64) +:+ b64_digit (n mod 64) +:+ "=="
  | [a; b] =>
      let n := (byte_val a * 256 + byte_val b) * 4 in
      b64_digit (n / 4096) +:+ b64_digit (n / 64 mod 64)
        +:+ b64_digit (n mod 64) +:+ "="
  | a :: b :: c :: rest =>
      let n := (byte_val a * 256 + byte_val b) * 256 + byte_val c in
      b64_digit (n / 262144) +:+ b64_digit (n / 4096 mod 64)
        +:+ b64_digit (n / 64 mod 64) +:+ b64_digit (n mod 64)
        +:+ base64 rest
  end.

(** ** Override configuration: structured map or legacy string *)

Inductive override_config :=
| Legacy (s : string)
| Structured (o : options).

(** Truthiness of the configured value: the empty string is falsy. *)
Definition configured (c : option override_config) : bool :=
  match c with
  | None => false
  | Some (Legacy s) => nonempty s
  | Some (Structured _) => true
  end.

(** Assignment to a property of an object under construction. *)
Fixpoint obj_set (k : string) (v : jsval) (o : options) : options :=
  match o with
  | [] => [(k, v)]
  | (k', v') :: r =>
      if String.eqb k' k then (k', v) :: r else (k', v') :: obj_set k v r
  end.

(** [Object.fromEntries] on arrays of strings: element 0 is the key,
    element 1 the value. *)
Definition fromEntries (entries : list (list string)) : options :=
  fold_left
    (fun o e =>
       match e with
       | [] => obj_set "undefined" VUndef o
       | [k] => obj_set k VUndef o
       | k :: v :: _ => obj_set k (VStr v) o
       end)
    entries [].

(** [s.split('-').filter(x => x).map(arg => '-' + arg)
      .map(a => a.split(' ').filter(x => x))] *)
Definition legacy_entries (s : string) : list (list string) :=
  map (fun a => List.filter nonempty (split " " a))
    (map (fun a => "-" +:+ a) (List.filter nonempty (split "-" s))).

Definition normalize (c : override_config) : options :=
  match c with
  | Legacy s => fromEntries (legacy_entries s)
  | Structured o => o
  end.

Definition apply_overrides (pos : position) (c : option override_config)
    (args : arg_group) : arg_group :=
  match c with
  | Some cfg => if configured c then merge pos (normalize cfg) args else args
  | None => args
  end.

(** ** Static data of an accessory *)

(** The fields of [cameraDetails] that the class reads. *)
Record camera_details := {
  uuid : string;
  model : string;
  shutterOff : jsval;
  shutterHome : jsval;
  shutterAway : jsval;
  admin_fps : Z;
  admin_bitRate : Z
}.

Record camera_options := {
  opt_ffmpegPath : option string;
  enableHwaccelRpi : bool;
  sourceOptions : option override_config;
  videoOptions : option override_config;
  audioOptions : option override_config
}.

(** What the class imports: [isDocker()], the binary of
    ffmpeg-for-homebridge and the retry interval of ../simplisafe. *)
Record environment := {
  isDocker : bool;
  bundled_ffmpeg : string;
  SOCKET_RETRY_INTERVAL : Z
}.

Record camera_config := {
  env : environment;
  id : string;
  cameraDetails : camera_details;
  cameraOptions : option camera_options
}.

(** Truthiness of an optional string. *)
Definition truthy_str (o : option string) : bool :=
  match o with Some s => nonempty s | None => false end.

(** [this.cameraOptions && this.cameraOptions.ffmpegPath] *)
Definition custom_ffmpeg (cfg : camera_config) : option string :=
  match cameraOptions cfg with
  | Some o => if truthy_str (opt_ffmpegPath o) then opt_ffmpegPath o else None
  | None => None
  end.

(** [this.ffmpegPath] as the constructor leaves it. *)
Definition ffmpegPath (cfg : camera_config) : string :=
  match custom_ffmpeg cfg with
  | Some p => p
  | None => if isDocker (env cfg) then "ffmpeg" else bundled_ffmpeg (env cfg)
  end.

(** ** Sessions *)

Record media_info := {
  m_port : Z;
  m_srtp : list byte;
  m_ssrc : Z
}.

(** A pending session: [video_port], [video_srtp] and [video_ssrc] are set
    together, and so are the audio fields. *)
Record session_info := {
  address : string;
  video_info : option media_info;
  audio_info : option media_info
}.

Record source_request := {
  port : Z;
  srtp_key : list byte;
  srtp_salt : list byte
}.

(** The session identifier is the string [UUIDGen.unparse(sessionID)]. *)
Record prepare_request := {
  p_sessionID : string;
  targetAddress : string;
  p_video : option source_request;
  p_audio : option source_request
}.

Record source_response := {
  r_port : Z;
  r_ssrc : Z;
  r_srtp_key : list byte;
  r_srtp_salt : list byte
}.

Record prepare_response := {
  r_video : option source_response;
  r_audio : option source_response;
  r_address : string;
  r_type : string
}.

Record video_request := {
  v_width : option Z;
  v_fps : option Z;
  v_max_bit_rate : option Z;
  v_mtu : option Z
}.

Record audio_request := {
  a_max_bit_rate : option Z;
  a_sample_rate : option Z;
  a_codec : option string
}.

(** [s_sessionID = None] is a falsy [request.sessionID]. *)
Record stream_request := {
  s_sessionID : option string;
  s_type : string;
  s_video : option video_request;
  s_audio : option audio_request
}.

(** ** Answers of the environment *)

(** [this.simplisafe.isBlocked], [this.simplisafe.nextAttempt] and
    [Date.now()] at the time of the call. *)
Record rate_gate := {
  isBlocked : bool;
  nextAttempt : Z;
  now : Z
}.

Definition blocked (g : rate_gate) : bool :=
  isBlocked g && (now g <? nextAttempt g).

Inductive dns_answer :=
| Resolved (addr : string)
| LookupFails (err : string).

Inductive alarm_answer :=
| AlarmState (state : string)
| AlarmFails (err : string).

Inductive fetch_answer :=
| Image (img : list byte)
| FetchFails (err : string).

Inductive subscribe_answer :=
| Subscribed
| RateLimitError
| OtherError.

(** Four bytes of [crypto.randomBytes(4)]. *)
Definition entropy := (byte * byte * byte * byte)%type.

Definition randomBytes4 (e : entropy) : list byte :=
  let '(a, b, c, d) := e in [a; b; c; d].

(** Modelled from the spec: the EVENT_TYPES table of ../simplisafe, which
    is not in src: the three socket events, the two camera events, and
    any other event by its name. *)
Inductive event_type :=
| CONNECTED
| DISCONNECT
| CONNECTION_LOST
| CAMERA_MOTION
| DOORBELL
| OTHER_EVENT (name : string).

(** [data.sensorSerial] and, when [data.internal] is there,
    [data.internal.mainCamera]. *)
Record event_data := {
  sensorSerial : option string;
  internal : option (option string)
}.

(** ** Trace *)

Inductive cb_value :=
| CbNothing
| CbValue (v : jsval)
| CbImage (img : list byte)
| CbResponse (r : prepare_response).

(** [callback(undefined, v)] or [callback()], and [callback(err)]. *)
Inductive cb_result :=
| CbOk (v : cb_value)
| CbErr (err : string).

Inductive timer :=
| Relisten
| ClearMotion.

(** A callback is named by the number of the request it came with. *)
Inductive effect :=
| Callback (rid : nat) (r : cb_result)
| AlarmQuery
| DnsLookup (host : string)
| Fetch (url : string) (authorization : string)
| Spawn (pid : nat) (binary : string) (argv : list jsval)
| Kill (pid : nat)
| ForceStop (sid : string)
| SetTimeout (delay : Z) (t : timer)
| MotionDetected (b : bool)
| DoorbellPress
| Uncaught.

(** ** State *)

(** The closure of the handlers of one spawned process: the session, the
    callback of the start request, and [started]. *)
Record proc := {
  proc_session : string;
  proc_callback : nat;
  proc_started : bool
}.

(** The mutable fields of [this], the spawned processes (a process is
    named by its index) and the trace.  [accessory] holds whether the
    accessory has a Doorbell service. *)
Record camera := {
  pendingSessions : gmap string session_info;
  ongoingSessions : gmap string nat;
  serverIpAddress : option string;
  motionIsTriggered : bool;
  nSocketConnectFailures : Z;
  accessory : option bool;
  procs : list proc;
  trace : list effect
}.

Definition construct : camera :=
  {| pendingSessions := ∅; ongoingSessions := ∅; serverIpAddress := None;
     motionIsTriggered := false; nSocketConnectFailures := 0;
     accessory := None; procs := []; trace := [] |}.

Definition set_pending (m : gmap string session_info) (c : camera) : camera :=
  {| pendingSessions := m; ongoingSessions := ongoingSessions c;
     serverIpAddress := serverIpAddress c;
     motionIsTriggered := motionIsTriggered c;
     nSocketConnectFailures := nSocketConnectFailures c;
     accessory := accessory c; procs := procs c; trace := trace c |}.

Definition set_ongoing (m : gmap string nat) (c : camera) : camera :=
  {| pendingSessions := pendingSessions c; ongoingSessions := m;
     serverIpAddress := serverIpAddress c;
     motionIsTriggered := motionIsTriggered c;
     nSocketConnectFailures := nSocketConnectFailures c;
     accessory := accessory c; procs := procs c; trace := trace c |}.

Definition set_ip (a : option string) (c : camera) : camera :=
  {| pendingSessions := pendingSessions c;
     ongoingSessions := ongoingSessions c; serverIpAddress := a;
     motionIsTriggered := motionIsTriggered c;
     nSocketConnectFailures := nSocketConnectFailures c;
     accessory := accessory c; procs := procs c; trace := trace c |}.

Definition set_motion (b : bool) (c : camera) : camera :=
  {| pendingSessions := pendingSessions c;
     ongoingSessions := ongoingSessions c;
     serverIpAddress := serverIpAddress c; motionIsTriggered := b;
     nSocketConnectFailures := nSocketConnectFailures c;
     accessory := accessory c; procs := procs c; trace := trace c |}.

Definition set_failures (n : Z) (c : camera) : camera :=
  {| pendingSessions := pendingSessions c;
     ongoingSessions := ongoingSessions c;
     serverIpAddress := serverIpAddress c;
     motionIsTriggered := motionIsTriggered c; nSocketConnectFailures := n;
     accessory := accessory c; procs := procs c; trace := trace c |}.

Definition set_accessory (a : option bool) (c : camera) : camera :=
  {| pendingSessions := pendingSessions c;
     ongoingSessions := ongoingSessions c;
     serverIpAddress := serverIpAddress c;
     motionIsTriggered := motionIsTriggered c;
     nSocketConnectFailures := nSocketConnectFailures c;
     accessory := a; procs := procs c; trace := trace c |}.

Definition set_procs (ps : list proc) (c : camera) : camera :=
  {| pendingSessions := pendingSessions c;
     ongoingSessions := ongoingSessions c;
     serverIpAddress := serverIpAddress c;
     motionIsTriggered := motionIsTriggered c;
     nSocketConnectFailures := nSocketConnectFailures c;
     accessory := accessory c; procs := ps; trace := trace c |}.

Definition emit (e : effect) (c : camera) : camera :=
  {| pendingSessions := pendingSessions c;
     ongoingSessions := ongoingSessions c;
     serverIpAddress := serverIpAddress c;
     motionIsTriggered := motionIsTriggered c;
     nSocketConnectFailures := nSocketConnectFailures c;
     accessory := accessory c; procs := procs c;
     trace := trace c ++ [e] |}.

(** ** identify, setAccessory, getState *)

Definition identify (rid : nat) (c : camera) : camera :=
  emit (Callback rid (CbOk CbNothing)) c.

Definition setAccessory (has_doorbell : bool) (c : camera) : camera :=
  set_accessory (Some has_doorbell) c.

(** [value] is [service.getCharacteristic(characteristicType).value]. *)
Definition getState (rid : nat) (g : rate_gate) (value : jsval) (c : camera)
  : camera :=
  if blocked g
  then emit (Callback rid (CbErr "Request blocked (rate limited)")) c
  else emit (Callback rid (CbOk (CbValue value))) c.

(** ** Address resolution (lines 249-256 and 368-378)

    [dnsLookup('media.simplisafe.com')] and, when it answers, the
    assignment to [this.serverIpAddress]. *)
Definition media_host : string := "media.simplisafe.com".

Definition lookup_media (dns : dns_answer) (c : camera) : camera :=
  let c1 := emit (DnsLookup media_host) c in
  match dns with
  | Resolved a => set_ip (Some a) c1
  | LookupFails _ => c1
  end.

(** ** handleSnapshotRequest *)

(** The [switch (alarmState)] of the privacy gate: [true] when the case of
    the state finds its shutter setting [!== 'open']. *)
Definition shutter_closed (d : camera_details) (alarmState : string) : bool :=
  if String.eqb alarmState "OFF"
  then negb (strict_eq (shutterOff d) (VStr "open"))
  else if String.eqb alarmState "HOME"
  then negb (strict_eq (shutterHome d) (VStr "open"))
  else if String.eqb alarmState "AWAY"
  then negb (strict_eq (shutterAway d) (VStr "open"))
  else false.

Definition snapshot_url (cfg : camera_config) (c : camera) (width : Z)
  : string :=
  "https://" +:+ show_opt (serverIpAddress c) +:+ "/v1/"
    +:+ uuid (cameraDetails cfg) +:+ "/mjpg?x=" +:+ show_num width
    +:+ "&fr=1".

(** From the lookup to the callback of [jpegExtract(url)]. *)
Definition snapshot_fetch (cfg : camera_config) (rid : nat) (width : Z)
    (token : string) (dns : dns_answer) (img : fetch_answer) (c : camera)
  : camera :=
  let c1 := lookup_media dns c in
  let c2 := emit (Fetch (snapshot_url cfg c1 width) ("Bearer " +:+ token)) c1 in
  match img with
  | Image i => emit (Callback rid (CbOk (CbImage i))) c2
  | FetchFails e => emit (Callback rid (CbErr e)) c2
  end.

(** The method runs to its end in one step: the answers it awaits
    ([getAlarmState], the lookup, the fetch) are arguments.  An alarm
    query that fails rejects the promise of the method. *)
Definition handleSnapshotRequest (cfg : camera_config) (rid : nat)
    (g : rate_gate) (width : Z) (token : string) (alarm : alarm_answer)
    (dns : dns_answer) (img : fetch_answer) (c : camera) : camera :=
  if blocked g
  then emit (Callback rid (CbErr "Camera snapshot request blocked (rate limited)")) c
  else if negb (motionIsTriggered c)
          && String.eqb (model (cameraDetails cfg)) "SS001"
  then
    let c1 := emit AlarmQuery c in
    match alarm with
    | AlarmFails _ => emit Uncaught c1
    | AlarmState st =>
        if shutter_closed (cameraDetails cfg) st
        then emit (Callback rid (CbErr "Privacy shutter closed")) c1
        else snapshot_fetch cfg rid width token dns img c1
    end
  else snapshot_fetch cfg rid width token dns img c.

(** ** prepareStream *)

(** [ssrcSource[0] = 0; ssrcSource.readInt32BE(0, true)] *)
Definition make_ssrc (ssrcSource : list byte) : option Z :=
  readInt32BE (<[0%nat := x00]> ssrcSource) 0.

(** One media type of the request: its part of the response and of the
    session.  The outer [None] is an exception of [readInt32BE]. *)
Definition prepare_media (o : option source_request) (e : entropy)
  : option (option (source_response * media_info)) :=
  match o with
  | None => Some None
  | Some s =>
      match make_ssrc (randomBytes4 e) with
      | Some ssrc =>
          Some (Some ({| r_port := port s; r_ssrc := ssrc;
                         r_srtp_key := srtp_key s;
                         r_srtp_salt := srtp_salt s |},
                      {| m_port := port s;
                         m_srtp := srtp_key s ++ srtp_salt s;
                         m_ssrc := ssrc |}))
      | None => None
      end
  end.

(** [my_ip] is [ip.address()], [is_v4] is [ip.isV4Format(my_ip)]. *)
Definition prepareStream (rid : nat) (req : prepare_request)
    (ev ea : entropy) (my_ip : string) (is_v4 : bool) (c : camera) : camera :=
  match prepare_media (p_video req) ev, prepare_media (p_audio req) ea with
  | Some v, Some a =>
      let response :=
        {| r_video := fst <$> v; r_audio := fst <$> a; r_address := my_ip;
           r_type := if is_v4 then "v4" else "v6" |} in
      let sessionInfo :=
        {| address := targetAddress req; video_info := snd <$> v;
           audio_info := snd <$> a |} in
      emit (Callback rid (CbOk (CbResponse response)))
        (set_pending (<[p_sessionID req := sessionInfo]> (pendingSessions c)) c)
  | _, _ => emit Uncaught c
  end.

(** ** Transcoder arguments (lines 354-366 and 380-507) *)

Record stream_params := {
  width : Z;
  fps : Z;
  videoBitrate : Z;
  audioBitrate : Z;
  audioSamplerate : Z;
  mtu : Z
}.

(** [x ?? d] *)
Definition or_default (x : option Z) (d : Z) : Z :=
  match x with Some v => v | None => d end.

(** [if (x < cap) cap = x], where a comparison with [undefined] is false. *)
Definition lower_to (x : option Z) (cap : Z) : Z :=
  match x with
  | Some v => if v <? cap then v else cap
  | None => cap
  end.

Definition stream_parameters (d : camera_details) (v : video_request)
    (a : audio_request) : stream_params :=
  {| width := or_default (v_width v) 1920;
     fps := lower_to (v_fps v) (admin_fps d);
     videoBitrate := lower_to (v_max_bit_rate v) (admin_bitRate d);
     audioBitrate := or_default (a_max_bit_rate a) 96;
     audioSamplerate := or_default (a_sample_rate a) 16;
     mtu := or_default (v_mtu v) 1316 |}.

Definition scale_filter (w : Z) : string := "scale=" +:+ show_num w +:+ ":-2".

Definition source_url (ip : option string) (uuid : string) (w : Z) : string :=
  "https://" +:+ show_opt ip +:+ "/v1/" +:+ uuid +:+ "/flv?x=" +:+ show_num w
    +:+ "&audioEncoding=AAC".

Definition srtp_url (addr : string) (port : Z) (pkt_size : Z) : string :=
  "srtp://" +:+ addr +:+ ":" +:+ show_num port +:+ "?rtcpport="
    +:+ show_num port +:+ "&localrtcpport=" +:+ show_num port
    +:+ "&pkt_size=" +:+ show_num pkt_size.

Definition initial_sourceArgs (token : string) (ip : option string)
    (uuid : string) (p : stream_params) : arg_group :=
  [ [VStr "-re"];
    [VStr "-headers"; VStr ("Authorization: Bearer " +:+ token)];
    [VStr "-i"; VStr (source_url ip uuid (width p))] ].

Definition initial_videoArgs (p : stream_params) (addr : string)
    (m : media_info) : arg_group :=
  [ [VStr "-map"; VStr "0:0"];
    [VStr "-vcodec"; VStr "libx264"];
    [VStr "-tune"; VStr "zerolatency"];
    [VStr "-preset"; VStr "superfast"];
    [VStr "-pix_fmt"; VStr "yuv420p"];
    [VStr "-r"; VNum (fps p)];
    [VStr "-f"; VStr "rawvideo"];
    [VStr "-vf"; VStr (scale_filter (width p))];
    [VStr "-b:v"; VStr (show_num (videoBitrate p) +:+ "k")];
    [VStr "-bufsize"; VStr (show_num (2 * videoBitrate p) +:+ "k")];
    [VStr "-maxrate"; VStr (show_num (videoBitrate p) +:+ "k")];
    [VStr "-payload_type"; VNum 99];
    [VStr "-ssrc"; VNum (m_ssrc m)];
    [VStr "-f"; VStr "rtp"];
    [VStr "-srtp_out_suite"; VStr "AES_CM_128_HMAC_SHA1_80"];
    [VStr "-srtp_out_params"; VStr (base64 (m_srtp m))];
    [VStr (srtp_url addr (m_port m) (mtu p))] ].

Definition initial_audioArgs (p : stream_params) (addr : string)
    (m : media_info) : arg_group :=
  [ [VStr "-map"; VStr "0:1"];
    [VStr "-acodec"; VStr "libfdk_aac"];
    [VStr "-flags"; VStr "+global_header"];
    [VStr "-profile:a"; VStr "aac_eld"];
    [VStr "-ac"; VStr "1"];
    [VStr "-ar"; VStr (show_num (audioSamplerate p) +:+ "k")];
    [VStr "-b:a"; VStr (show_num (audioBitrate p) +:+ "k")];
    [VStr "-bufsize"; VStr (show_num (2 * audioBitrate p) +:+ "k")];
    [VStr "-payload_type"; VNum 110];
    [VStr "-ssrc"; VNum (m_ssrc m)];
    [VStr "-f"; VStr "rtp"];
    [VStr "-srtp_out_suite"; VStr "AES_CM_128_HMAC_SHA1_80"];
    [VStr "-srtp_out_params"; VStr (base64 (m_srtp m))];
    [VStr (srtp_url addr (m_port m) 188)] ].

(** The three groups under construction. *)
Record arg_groups := {
  sourceArgs : arg_group;
  videoArgs : arg_group;
  audioArgs : arg_group
}.

(** Lines 380-421.  [sessionInfo.video_srtp.toString] and
    [sessionInfo.audio_srtp.toString] throw a TypeError when the session
    was prepared without that media type: [None]. *)
Definition initial_args (cfg : camera_config) (token : string)
    (ip : option string) (p : stream_params) (info : session_info)
  : option arg_groups :=
  match video_info info, audio_info info with
  | Some vm, Some am =>
      Some {| sourceArgs :=
                initial_sourceArgs token ip (uuid (cameraDetails cfg)) p;
              videoArgs := initial_videoArgs p (address info) vm;
              audioArgs := initial_audioArgs p (address info) am |}
  | _, _ => None
  end.

(** [isDocker() && (!this.cameraOptions || !this.cameraOptions.ffmpegPath)] *)
Definition docker_bundled (cfg : camera_config) : bool :=
  isDocker (env cfg)
  && match custom_ffmpeg cfg with Some _ => false | None => true end.

(** Lines 425-427: [width = Math.min(width, 720)] and the rewrite of the
    second element of the '-vf' argument. *)
Definition clamp_width (p : stream_params) (g : arg_groups) : arg_groups :=
  {| sourceArgs := sourceArgs g;
     videoArgs :=
       set_first "-vf" (VStr (scale_filter (Z.min (width p) 720))) (videoArgs g);
     audioArgs := audioArgs g |}.

(** [a[1] = a[1].replace(pat, '')] *)
Definition strip_in_value (pat : string) (a : arg) : arg :=
  match a with
  | f :: VStr u :: rest => f :: VStr (replace_first pat "" u) :: rest
  | _ => a
  end.

(** [args.splice(args.indexOf(args.find(arg => arg[0] == key)), 1)];
    an index of -1 counts from the end. *)
Fixpoint remove_first (key : string) (args : arg_group) : arg_group :=
  match args with
  | [] => []
  | a :: rest => if flag_is key a then rest else a :: remove_first key rest
  end.

Definition splice_out (key : string) (args : arg_group) : arg_group :=
  match List.find (flag_is key) args with
  | Some _ => remove_first key args
  | None => removelast args
  end.

(** [args.splice(args.indexOf(args.find(arg => arg[0] == key)), 0, x)] *)
Fixpoint insert_before (key : string) (x : arg) (args : arg_group)
  : arg_group :=
  match args with
  | [] => []
  | a :: rest =>
      if flag_is key a then x :: a :: rest else a :: insert_before key x rest
  end.

Definition splice_in (key : string) (x : arg) (args : arg_group) : arg_group :=
  match List.find (flag_is key) args with
  | Some _ => insert_before key x args
  | None =>
      match args with
      | [] => [x]
      | _ => removelast args ++ x :: skipn (length args - 1) args
      end
  end.

(** Lines 432-437. *)
Definition opus_rewrite (g : arg_groups) : arg_groups :=
  {| sourceArgs := alter_first "-i" (strip_in_value "&audioEncoding=AAC")
                     (sourceArgs g);
     videoArgs := videoArgs g;
     audioArgs := splice_out "-profile:a"
                    (set_first "-acodec" (VStr "libopus") (audioArgs g)) |}.

(** Lines 442-447. *)
Definition hwaccel_rewrite (g : arg_groups) : arg_groups :=
  {| sourceArgs := splice_in "-i" [VStr "-vcodec"; VStr "h264_mmal"]
                     (sourceArgs g);
     videoArgs := drop_flag "-preset"
                    (drop_flag "-tune"
                       (set_first "-vcodec" (VStr "h264_omx") (videoArgs g)));
     audioArgs := audioArgs g |}.

(** Lines 441-502. *)
Definition apply_camera_options (o : camera_options) (g : arg_groups)
  : arg_groups :=
  let g1 := if enableHwaccelRpi o then hwaccel_rewrite g else g in
  {| sourceArgs := apply_overrides Front (sourceOptions o) (sourceArgs g1);
     videoArgs := apply_overrides Back (videoOptions o) (videoArgs g1);
     audioArgs := apply_overrides Back (audioOptions o) (audioArgs g1) |}.

Definition is_opus (a : audio_request) : bool :=
  match a_codec a with Some c => String.eqb c "OPUS" | None => false end.

(** Lines 423-428. *)
Definition docker_rewrite (cfg : camera_config) (p : stream_params)
    (g : arg_groups) : arg_groups :=
  if docker_bundled cfg then clamp_width p g else g.

(** Lines 430-438. *)
Definition codec_rewrite (a : audio_request) (g : arg_groups) : arg_groups :=
  if is_opus a then opus_rewrite g else g.

(** Lines 440-503. *)
Definition options_rewrite (cfg : camera_config) (g : arg_groups)
  : arg_groups :=
  match cameraOptions cfg with
  | Some o => apply_camera_options o g
  | None => g
  end.

(** Lines 423-503, on the groups of lines 380-421. *)
Definition rewrite_args (cfg : camera_config) (p : stream_params)
    (a : audio_request) (g : arg_groups) : arg_groups :=
  options_rewrite cfg (codec_rewrite a (docker_rewrite cfg p g)).

(** [typeof a == 'string' ? a.trim() : a] *)
Definition trim_val (v : jsval) : jsval :=
  match v with VStr s => VStr (trim s) | _ => v end.

(** [[].concat(...args.map(arg => arg.map(...)))] *)
Definition flatten (args : arg_group) : list jsval :=
  concat (map (map trim_val) args).

Definition command_line (g : arg_groups) : list jsval :=
  flatten (sourceArgs g) ++ flatten (videoArgs g) ++ flatten (audioArgs g).

(** ** handleStreamRequest *)

Definition delete_pending (sid : string) (c : camera) : camera :=
  set_pending (delete sid (pendingSessions c)) c.

(** Lines 380-557: build the arguments, spawn, register the handlers (a
    fresh closure with [started = false]) and record the ongoing session.
    A process that cannot be launched is still returned by [spawn]; the
    failure comes later as its 'error' event. *)
Definition spawn_transcoder (cfg : camera_config) (rid : nat) (sid : string)
    (token : string) (p : stream_params) (a : audio_request)
    (info : session_info) (c : camera) : camera :=
  match initial_args cfg token (serverIpAddress c) p info with
  | None => emit Uncaught c
  | Some g =>
      let pid := length (procs c) in
      let c1 := emit (Spawn pid (ffmpegPath cfg)
                        (command_line (rewrite_args cfg p a g))) c in
      let c2 := set_procs (procs c1 ++ [{| proc_session := sid;
                                           proc_callback := rid;
                                           proc_started := false |}]) c1 in
      let c3 := set_ongoing (<[sid := pid]> (ongoingSessions c2)) c2 in
      delete_pending sid c3
  end.

(** The 'start' branch behind the rate-limit check, for a session found
    in [pendingSessions].  Reading [request.video.width] or
    [request.audio.max_bit_rate] off a missing part throws. *)
Definition start_stream (cfg : camera_config) (rid : nat) (sid : string)
    (req : stream_request) (token : string) (dns : dns_answer)
    (info : session_info) (c : camera) : camera :=
  match s_video req, s_audio req with
  | Some v, Some a =>
      let p := stream_parameters (cameraDetails cfg) v a in
      let c1 := lookup_media dns c in
      match dns with
      | Resolved _ => spawn_transcoder cfg rid sid token p a info c1
      | LookupFails err =>
          if truthy_str (serverIpAddress c1)
          then spawn_transcoder cfg rid sid token p a info c1
          else emit (Callback rid (CbErr err)) (delete_pending sid c1)
      end
  | _, _ => emit Uncaught c
  end.

(** The 'stop' branch.  An exception of [cmd.kill] is caught and logged. *)
Definition stop_stream (rid : nat) (sid : string) (c : camera) : camera :=
  let c1 := match ongoingSessions c !! sid with
            | Some pid => emit (Kill pid) c
            | None => c
            end in
  emit (Callback rid (CbOk CbNothing))
    (set_ongoing (delete sid (ongoingSessions c1)) c1).

Definition handleStreamRequest (cfg : camera_config) (rid : nat)
    (req : stream_request) (g : rate_gate) (token : string)
    (dns : dns_answer) (c : camera) : camera :=
  match s_sessionID req with
  | None => c
  | Some sid =>
      if String.eqb (s_type req) "start" then
        if blocked g
        then emit (Callback rid
                     (CbErr "Camera stream request blocked (rate limited)"))
               (delete_pending sid c)
        else
          match pendingSessions c !! sid with
          | Some info => start_stream cfg rid sid req token dns info c
          | None => delete_pending sid c
          end
      else if String.eqb (s_type req) "stop" then stop_stream rid sid c
      else c
  end.

(** ** Handlers of a spawned process (lines 522-555) *)

Definition mark_started (pid : nat) (c : camera) : camera :=
  set_procs
    (alter (fun p => {| proc_session := proc_session p;
                        proc_callback := proc_callback p;
                        proc_started := true |}) pid (procs c)) c.

(** [cmd.stderr.on('data', ...)] *)
Definition on_stderr (pid : nat) (c : camera) : camera :=
  match procs c !! pid with
  | Some p =>
      if proc_started p then c
      else emit (Callback (proc_callback p) (CbOk CbNothing))
             (mark_started pid c)
  | None => c
  end.

(** [cmd.on('error', ...)] *)
Definition on_error (pid : nat) (err : string) (c : camera) : camera :=
  match procs c !! pid with
  | Some p => emit (Callback (proc_callback p) (CbErr err)) c
  | None => c
  end.

Definition exit_message (code : Z) : string :=
  "Error: FFmpeg exited with code " +:+ show_num code.

(** [switch (code)] of the 'close' handler: [null], 0 and 255. *)
Definition normal_exit (code : option Z) : bool :=
  match code with
  | None => true
  | Some n => (n =? 0) || (n =? 255)
  end.

(** [cmd.on('close', ...)] *)
Definition on_close (pid : nat) (code : option Z) (c : camera) : camera :=
  match procs c !! pid with
  | Some p =>
      match code with
      | Some n =>
          if normal_exit code then c
          else if proc_started p then emit (ForceStop (proc_session p)) c
          else emit (Callback (proc_callback p) (CbErr (exit_message n))) c
      | None => c
      end
  | None => c
  end.

(** ** Event subscription (lines 151-208) *)

(** [startListening] up to the answer of [subscribeToEvents]. *)
Definition startListening (cfg : camera_config) (ans : subscribe_answer)
    (c : camera) : camera :=
  match ans with
  | Subscribed => c
  | RateLimitError =>
      let retryInterval :=
        2 ^ nSocketConnectFailures c * SOCKET_RETRY_INTERVAL (env cfg) in
      set_failures (nSocketConnectFailures c + 1)
        (emit (SetTimeout retryInterval Relisten) c)
  | OtherError => c
  end.

(** The first [switch] of the subscription callback. *)
Definition on_socket_event (cfg : camera_config) (ev : event_type)
    (c : camera) : camera :=
  match ev with
  | CONNECTED => set_failures 0 c
  | CONNECTION_LOST =>
      emit (SetTimeout (SOCKET_RETRY_INTERVAL (env cfg)) Relisten) c
  | _ => c
  end.

(** [eventCameraIds.indexOf(this.id) > -1] *)
Definition concerns (cfg : camera_config) (d : event_data) : bool :=
  match sensorSerial d with
  | Some s => String.eqb s (id cfg)
  | None => false
  end
  || match internal d with
     | Some (Some m) => String.eqb m (id cfg)
     | _ => false
     end.

(** The second [switch]; without a Doorbell service the doorbell case
    throws. *)
Definition on_camera_event (has_doorbell : bool) (ev : event_type)
    (c : camera) : camera :=
  match ev with
  | CAMERA_MOTION =>
      emit (SetTimeout 5000 ClearMotion)
        (set_motion true (emit (MotionDetected true) c))
  | DOORBELL => if has_doorbell then emit DoorbellPress c else emit Uncaught c
  | _ => c
  end.

(** The callback given to [subscribeToEvents]. *)
Definition on_event (cfg : camera_config) (ev : event_type)
    (data : option event_data) (c : camera) : camera :=
  let c1 := on_socket_event cfg ev c in
  match accessory c1, data with
  | Some has_doorbell, Some d =>
      if concerns cfg d then on_camera_event has_doorbell ev c1 else c1
  | _, _ => c1
  end.

(** The timer set by a motion event. *)
Definition clear_motion (c : camera) : camera :=
  set_motion false (emit (MotionDetected false) c).

(** ** The accessory as a machine *)

Inductive input :=
| InIdentify (rid : nat)
| InSetAccessory (has_doorbell : bool)
| InGetState (rid : nat) (g : rate_gate) (value : jsval)
| InSnapshot (rid : nat) (g : rate_gate) (width : Z) (token : string)
    (alarm : alarm_answer) (dns : dns_answer) (img : fetch_answer)
| InPrepare (rid : nat) (req : prepare_request) (ev ea : entropy)
    (my_ip : string) (is_v4 : bool)
| InStream (rid : nat) (req : stream_request) (g : rate_gate)
    (token : string) (dns : dns_answer)
| InStderr (pid : nat)
| InError (pid : nat) (err : string)
| InClose (pid : nat) (code : option Z)
| InListen (ans : subscribe_answer)
| InEvent (ev : event_type) (data : option event_data)
| InClearMotion.

Definition step (cfg : camera_config) (c : camera) (i : input) : camera :=
  match i with
  | InIdentify rid => identify rid c
  | InSetAccessory d => setAccessory d c
  | InGetState rid g v => getState rid g v c
  | InSnapshot rid g w token alarm dns img =>
      handleSnapshotRequest cfg rid g w token alarm dns img c
  | InPrepare rid req ev ea my_ip is_v4 =>
      prepareStream rid req ev ea my_ip is_v4 c
  | InStream rid req g token dns => handleStreamRequest cfg rid req g token dns c
  | InStderr pid => on_stderr pid c
  | InError pid err => on_error pid err c
  | InClose pid code => on_close pid code c
  | InListen ans => startListening cfg ans c
  | InEvent ev data => on_event cfg ev data c
  | InClearMotion => clear_motion c
  end.

Definition run (cfg : camera_config) (c : camera) (ins : list input)
  : camera :=
  fold_left (step cfg) ins c.

(** ** Observations on the trace *)

Definition is_callback (rid : nat) (e : effect) : bool :=
  match e with
  | Callback r _ => Nat.eqb r rid
  | _ => false
  end.

(** How many times the callback of request [rid] has been invoked. *)
Definition callbacks (rid : nat) (c : camera) : nat :=
  length (List.filter (is_callback rid) (trace c)).

(** The delays of the timers that restart the subscription, in order. *)
Definition retry_delays (c : camera) : list Z :=
  omap (fun e => match e with
                 | SetTimeout d Relisten => Some d
                 | _ => None
                 end) (trace c).

(** What a step appended to the trace. *)
Definition appended (before after : camera) : list effect :=
  skipn (length (trace before)) (trace after).

(** [settled key v args]: the first argument of the group that carries
    [key] already has [v] as its second element. *)
Definition settled (key : string) (v : jsval) (args : arg_group) : Prop :=
  exists a, List.find (flag_is key) args = Some a /\ set1 v a = a.

(** The second element of a response part lies in the range of an SSRC
    whose first byte is zero. *)
Definition ssrc_in_range (o : option source_response) : Prop :=
  match o with
  | Some s => 0 <= r_ssrc s < 16777216
  | None => True
  end.

(** No session identifier is a key of both maps. *)
Definition sessions_exclusive (c : camera) : Prop :=
  forall sid : string,
    pendingSessions c !! sid = None \/ ongoingSessions c !! sid = None.

(** Every prepare request of a run comes with an identifier that has no
    ongoing session at that time. *)
Fixpoint prepares_fresh (cfg : camera_config) (c : camera) (ins : list input)
  : Prop :=
  match ins with
  | [] => True
  | i :: rest =>
      match i with
      | InPrepare _ req _ _ _ _ => ongoingSessions c !! p_sessionID req = None
      | _ => True
      end
      /\ prepares_fresh cfg (step cfg c i) rest
  end.

(** Output lines and exits of process [pid]. *)
Definition output_or_exit (pid : nat) (i : input) : bool :=
  match i with
  | InStderr q => Nat.eqb q pid
  | InClose q _ => Nat.eqb q pid
  | _ => false
  end.

(** The shutter setting that the gate reads for an alarm state. *)
Definition shutter_setting (d : camera_details) (alarmState : string)
  : option jsval :=
  if String.eqb alarmState "OFF" then Some (shutterOff d)
  else if String.eqb alarmState "HOME" then Some (shutterHome d)
  else if String.eqb alarmState "AWAY" then Some (shutterAway d)
  else None.

(** [k] answers of [subscribeToEvents] with a RateLimitError in a row. *)
Definition rate_limited (cfg : camera_config) (k : nat) (c : camera) : camera :=
  Nat.iter k (startListening cfg RateLimitError) c.

(** ** Statements about the override merge *)

(** The flags of a group, in order: element 0 of every argument. *)
Definition flags (args : arg_group) : list (option jsval) := map head args.

(** The keys of an override map that no argument of the group carries,
    in the order of the map. *)
Definition new_keys (opts : options) (args : arg_group) : list string :=
  List.filter (fun k => negb (existsb (flag_is k) args)) (map fst opts).

(** ** Statements about prepareStream *)

(** One media type of a prepare request, of its response and of the
    session agree: all absent, or the same port, the key and the salt
    handed back, their concatenation stored, and one SSRC in both. *)
Definition media_agrees (o : option source_request)
    (r : option source_response) (m : option media_info) : Prop :=
  match o, r, m with
  | None, None, None => True
  | Some s, Some r, Some m =>
      r_port r = port s /\ m_port m = port s
      /\ r_srtp_key r = srtp_key s /\ r_srtp_salt r = srtp_salt s
      /\ m_srtp m = srtp_key s ++ srtp_salt s
      /\ m_ssrc m = r_ssrc r
  | _, _, _ => False
  end.

(** ** Sample data *)

Definition sample_details : camera_details :=
  {| uuid := "cam-uuid"; model := "SS001"; shutterOff := VStr "open";
     shutterHome := VStr "closed"; shutterAway := VStr "open";
     admin_fps := 20; admin_bitRate := 284 |}.

Definition sample_cfg : camera_config :=
  {| env := {| isDocker := true; bundled_ffmpeg := "/opt/ffmpeg";
               SOCKET_RETRY_INTERVAL := 1000 |};
     id := "cam-uuid"; cameraDetails := sample_details;
     cameraOptions := None |}.

Definition open_gate : rate_gate :=
  {| isBlocked := false; nextAttempt := 0; now := 100 |}.

Definition closed_gate : rate_gate :=
  {| isBlocked := true; nextAttempt := 200; now := 100 |}.

Definition sample_source : source_request :=
  {| port := 50000; srtp_key := [x01; x02]; srtp_salt := [x03] |}.

Definition sample_prepare : prepare_request :=
  {| p_sessionID := "s1"; targetAddress := "192.168.1.20";
     p_video := Some sample_source; p_audio := Some sample_source |}.

Definition sample_video : video_request :=
  {| v_width := Some 1280; v_fps := Some 30; v_max_bit_rate := Some 299;
     v_mtu := Some 1378 |}.

Definition sample_audio : audio_request :=
  {| a_max_bit_rate := Some 24; a_sample_rate := Some 16;
     a_codec := Some "AAC-eld" |}.

Definition sample_start : stream_request :=
  {| s_sessionID := Some "s1"; s_type := "start";
     s_video := Some sample_video; s_audio := Some sample_audio |}.

Definition sample_stop : stream_request :=
  {| s_sessionID := Some "s1"; s_type := "stop"; s_video := None;
     s_audio := None |}.

Definition sample_entropy : entropy := (xff, x12, x34, x56).

(** The accessory after a prepare request for session "s1". *)
Definition sample_prepared : camera :=
  prepareStream 0 sample_prepare sample_entropy sample_entropy "192.168.1.2"
    true construct.

(** A prepare request and its start, answered by a successful lookup:
    session "s1" is ongoing with process 0. *)
Definition sample_streaming : camera :=
  run sample_cfg construct
    [InPrepare 0 sample_prepare sample_entropy sample_entropy "192.168.1.2"
       true;
     InStream 1 sample_start open_gate "token" (Resolved "52.1.2.3")].

(** * Properties *)

(** ** The model on small inputs *)

Example legacy_overrides :
  normalize (Legacy "-vcodec copy -g 30")
  = [("-vcodec", VStr "copy"); ("-g", VStr "30")].
Proof. reflexivity. Qed.

Example base64_of_three_bytes : base64 [x01; x02; x03] = "AQID".
Proof. reflexivity. Qed.

Example ssrc_of_sample : make_ssrc (randomBytes4 sample_entropy) = Some 1193046.
Proof. reflexivity. Qed.

Example sample_streaming_sessions :
  pendingSessions sample_streaming !! "s1" = None
  /\ ongoingSessions sample_streaming !! "s1" = Some 0%nat
  /\ callbacks 1 sample_streaming = 0%nat.
Proof. repeat split. Qed.

Example trim_strips_both_ends :
  trim (String (ascii_of_nat 194) (String (ascii_of_nat 160)
          (" -g 30" +:+ String (ascii_of_nat 226) (String (ascii_of_nat 128)
                          (String (ascii_of_nat 131) (String (ascii_of_nat 10) ""))))))
  = "-g 30".
Proof. reflexivity. Qed.

Example removal_of_absent_flag :
  merge Back [("-tune", VBool false)] [[VStr "-re"]]
  = [[VStr "-re"]; [VStr "-tune"; VBool false]].
Proof. reflexivity. Qed.

(** ** Override merge *)

Lemma flag_is_inv key a :
  flag_is key a = true -> exists rest, a = VStr key :: rest.
Proof.
  destruct a as [|v rest]; simpl; [discriminate|].
  destruct v; simpl; try discriminate.
  intros H. apply String.eqb_eq in H. subst. eauto.
Qed.

Lemma flag_is_set1 key v a :
  flag_is key a = true -> flag_is key (set1 v a) = true.
Proof. destruct a; simpl; [discriminate | auto]. Qed.

Lemma flag_is_other key key' a :
  key <> key' -> flag_is key' a = true -> flag_is key a = false.
Proof.
  intros Hne H. apply flag_is_inv in H as [rest ->]. simpl.
  apply String.eqb_neq. congruence.
Qed.

Lemma set1_set1 v a : set1 v (set1 v a) = set1 v a.
Proof. destruct a as [|f [|x r]]; reflexivity. Qed.

Lemma find_alter_first_same key f args a :
  (forall x, flag_is key x = true -> flag_is key (f x) = true) ->
  List.find (flag_is key) args = Some a ->
  List.find (flag_is key) (alter_first key f args) = Some (f a).
Proof.
  intros Hf. induction args as [|x rest IH]; simpl; [discriminate|].
  destruct (flag_is key x) eqn:E.
  - intros [= ->]. simpl. now rewrite (Hf _ E).
  - intros H. simpl. rewrite E. auto.
Qed.

Lemma find_alter_first_other key key' f args :
  key <> key' ->
  (forall x, flag_is key' x = true -> flag_is key' (f x) = true) ->
  List.find (flag_is key) (alter_first key' f args)
  = List.find (flag_is key) args.
Proof.
  intros Hne Hf. induction args as [|x rest IH]; simpl; [reflexivity|].
  destruct (flag_is key' x) eqn:E; simpl.
  - rewrite (flag_is_other key key' (f x) Hne (Hf _ E)).
    now rewrite (flag_is_other key key' x Hne E).
  - now rewrite IH.
Qed.

Lemma alter_first_fixed key f args a :
  List.find (flag_is key) args = Some a -> f a = a ->
  alter_first key f args = args.
Proof.
  induction args as [|x rest IH]; simpl; [reflexivity|].
  destruct (flag_is key x).
  - intros [= ->] ->. reflexivity.
  - intros H Hf. now rewrite IH.
Qed.

Lemma find_app_none {A} (p : A -> bool) l x :
  List.find p l = None -> List.find p (l ++ [x]) = List.find p [x].
Proof.
  induction l as [|y l IH]; simpl; [reflexivity|].
  destruct (p y); [discriminate | auto].
Qed.

Lemma find_app_some {A} (p : A -> bool) l x a :
  List.find p l = Some a -> List.find p (l ++ [x]) = Some a.
Proof.
  induction l as [|y l IH]; simpl; [discriminate|].
  destruct (p y); auto.
Qed.

Lemma flag_is_fresh key v : flag_is key [VStr key; v] = true.
Proof. simpl. apply String.eqb_refl. Qed.

Lemma merge_step_settled pos key v args :
  is_false v = false -> settled key v args ->
  merge_step pos args (key, v) = args.
Proof.
  intros Hv (a & Hfind & Ha). unfold merge_step. rewrite Hfind, Hv.
  unfold set_first. eapply alter_first_fixed; eauto.
Qed.

Lemma merge_step_settles pos key v args :
  is_false v = false -> settled key v (merge_step pos args (key, v)).
Proof.
  intros Hv. unfold merge_step.
  destruct (List.find (flag_is key) args) as [a|] eqn:Hfind.
  - rewrite Hv. exists (set1 v a). split; [|apply set1_set1].
    unfold set_first. apply find_alter_first_same; [|assumption].
    intros x. apply flag_is_set1.
  - exists [VStr key; v]. split; [|reflexivity].
    destruct pos.
    + cbn [List.find]. now rewrite flag_is_fresh.
    + rewrite find_app_none by assumption.
      cbn [List.find]. now rewrite flag_is_fresh.
Qed.

Lemma merge_step_keeps_settled pos key v key' v' args :
  key <> key' -> is_false v' = false ->
  settled key v args -> settled key v (merge_step pos args (key', v')).
Proof.
  intros Hne Hv' (a & Hfind & Ha). exists a. split; [|assumption].
  unfold merge_step.
  destruct (List.find (flag_is key') args) as [b|] eqn:Hb.
  - rewrite Hv'. unfold set_first.
    rewrite find_alter_first_other; auto. intros x. apply flag_is_set1.
  - destruct pos.
    + cbn [List.find].
      rewrite (flag_is_other key key' [VStr key'; v'] Hne (flag_is_fresh _ _)).
      assumption.
    + now apply find_app_some.
Qed.

Lemma merge_cons pos kv opts args :
  merge pos (kv :: opts) args = merge pos opts (merge_step pos args kv).
Proof. reflexivity. Qed.

Lemma merge_keeps_settled pos opts : forall args key v,
  no_removal opts -> ~ In key (map fst opts) ->
  settled key v args -> settled key v (merge pos opts args).
Proof.
  induction opts as [|[k' v'] opts IH]; intros args key v Hrm Hnin Hs;
    [assumption|].
  rewrite merge_cons. inversion Hrm as [|? ? Hv' Hrest]; subst.
  apply IH; [assumption | simpl in Hnin; tauto |].
  apply merge_step_keeps_settled; auto. simpl in Hnin. intros ->. tauto.
Qed.

Lemma merge_settles pos opts : forall args key v,
  distinct_keys opts -> no_removal opts -> In (key, v) opts ->
  settled key v (merge pos opts args).
Proof.
  induction opts as [|[k' v'] opts IH]; intros args key v Hd Hrm Hin;
    [destruct Hin|].
  rewrite merge_cons. inversion Hrm as [|? ? Hv' Hrest]; subst.
  unfold distinct_keys in Hd. simpl in Hd. apply NoDup_cons_iff in Hd as [Hk' Hd].
  destruct Hin as [[= -> ->]|Hin].
  - apply merge_keeps_settled; auto. now apply merge_step_settles.
  - apply IH; auto.
Qed.

Lemma merge_fixed pos opts args :
  no_removal opts ->
  (forall key v, In (key, v) opts -> settled key v args) ->
  merge pos opts args = args.
Proof.
  induction opts as [|[k v] opts IH]; intros Hrm Hs; [reflexivity|].
  rewrite merge_cons. inversion Hrm as [|? ? Hv Hrest]; subst.
  rewrite merge_step_settled; auto.
  - apply IH; auto. intros key w Hin. apply Hs. now right.
  - apply Hs. now left.
Qed.

(** C3, as the code has it: merging an override map twice gives what
    merging it once gives, for source (new flags in front) and for video
    and audio (new flags at the end), whenever no value of the map is the
    removal marker [false]. *)
Theorem merge_idempotent_without_removal pos opts args :
  distinct_keys opts -> no_removal opts ->
  merge pos opts (merge pos opts args) = merge pos opts args.
Proof.
  intros Hd Hrm. apply merge_fixed; [assumption|].
  intros key v Hin. now apply merge_settles.
Qed.

Lemma merge_idempotent_witness :
  merge Back [("-vcodec", VStr "copy"); ("-g", VStr "30")]
    (merge Back [("-vcodec", VStr "copy"); ("-g", VStr "30")]
       [[VStr "-vcodec"; VStr "libx264"]; [VStr "-re"]])
  = merge Back [("-vcodec", VStr "copy"); ("-g", VStr "30")]
      [[VStr "-vcodec"; VStr "libx264"]; [VStr "-re"]].
Proof.
  apply merge_idempotent_without_removal.
  - unfold distinct_keys. simpl. repeat constructor; simpl; intuition congruence.
  - unfold no_removal. repeat constructor.
Defined.

(** C3 as stated fails: a removal marker takes the flag out on the first
    merge, and the second merge, no longer finding the flag, appends the
    pair of the flag and [false]. *)
Lemma merge_removal_not_idempotent :
  merge Back [("-tune", VBool false)]
    (merge Back [("-tune", VBool false)] [[VStr "-tune"; VStr "zerolatency"]])
  <> merge Back [("-tune", VBool false)] [[VStr "-tune"; VStr "zerolatency"]].
Proof. vm_compute. discriminate. Qed.

(** ** Traces *)

Lemma appended_app (c c' : camera) l :
  trace c' = trace c ++ l -> appended c c' = l.
Proof.
  intros H. unfold appended. rewrite H.
  rewrite skipn_app, skipn_all, Nat.sub_diag. reflexivity.
Qed.

Lemma appended_same (c c' : camera) : trace c' = trace c -> appended c c' = [].
Proof. intros H. apply appended_app. now rewrite app_nil_r. Qed.

Lemma callbacks_app (c c' : camera) rid l :
  trace c' = trace c ++ l ->
  callbacks rid c' = (callbacks rid c + length (List.filter (is_callback rid) l))%nat.
Proof.
  intros H. unfold callbacks. rewrite H, List.filter_app, length_app.
  reflexivity.
Qed.

Lemma is_callback_refl rid r : is_callback rid (Callback rid r) = true.
Proof. simpl. apply Nat.eqb_refl. Qed.

(** ** SSRC generation *)

Lemma byte_val_range b : 0 <= byte_val b < 256.
Proof.
  unfold byte_val. pose proof (Byte.to_N_bounded b) as H. lia.
Qed.

Lemma make_ssrc_value (e : entropy) :
  exists ssrc, make_ssrc (randomBytes4 e) = Some ssrc /\ 0 <= ssrc < 16777216.
Proof.
  destruct e as [[[a b] c] d]. eexists. split; [reflexivity|].
  change (int32 (Z.shiftl (byte_val x00) 24)) with 0.
  pose proof (byte_val_range b). pose proof (byte_val_range c).
  pose proof (byte_val_range d). lia.
Qed.

Lemma prepare_media_range o e :
  exists r, prepare_media o e = Some r /\ ssrc_in_range (fst <$> r).
Proof.
  destruct o as [s|]; simpl.
  - destruct (make_ssrc_value e) as (ssrc & -> & Hr).
    eexists. split; [reflexivity|]. exact Hr.
  - eexists. split; [reflexivity|]. exact I.
Qed.

Lemma make_ssrc_bytes (b0 b1 b2 b3 : byte) :
  make_ssrc [b0; b1; b2; b3]
  = Some (byte_val b1 * 65536 + byte_val b2 * 256 + byte_val b3).
Proof. reflexivity. Qed.

Lemma prepare_media_bytes o (b0 b1 b2 b3 : byte) :
  exists r,
    prepare_media o (b0, b1, b2, b3) = Some r
    /\ r_ssrc <$> (fst <$> r)
       = (fun _ => byte_val b1 * 65536 + byte_val b2 * 256 + byte_val b3)
         <$> o.
Proof.
  unfold prepare_media. cbn [randomBytes4]. rewrite make_ssrc_bytes.
  destruct o; eexists; split; reflexivity.
Qed.

(** C6: every SSRC that prepareStream returns, for video and for audio,
    comes from four random bytes: the first one is set to zero and the
    four are read as a big-endian 32-bit integer, so that the SSRC is
    second * 2^16 + third * 2^8 + fourth, whatever the first byte was; it
    lies in [0, 0x01000000) and its most significant byte is zero. *)
Theorem prepareStream_ssrc_range (rid : nat) (req : prepare_request)
    (v0 v1 v2 v3 a0 a1 a2 a3 : byte) (my_ip : string) (is_v4 : bool)
    (c : camera) :
  let video_ssrc := byte_val v1 * 65536 + byte_val v2 * 256 + byte_val v3 in
  let audio_ssrc := byte_val a1 * 65536 + byte_val a2 * 256 + byte_val a3 in
  exists resp,
    appended c
      (prepareStream rid req (v0, v1, v2, v3) (a0, a1, a2, a3) my_ip is_v4 c)
    = [Callback rid (CbOk (CbResponse resp))]
    /\ r_ssrc <$> r_video resp = (fun _ => video_ssrc) <$> p_video req
    /\ r_ssrc <$> r_audio resp = (fun _ => audio_ssrc) <$> p_audio req
    /\ 0 <= video_ssrc < 16777216
    /\ 0 <= audio_ssrc < 16777216
    /\ Z.shiftr video_ssrc 24 = 0
    /\ Z.shiftr audio_ssrc 24 = 0
    /\ ssrc_in_range (r_video resp)
    /\ ssrc_in_range (r_audio resp)
    /\ make_ssrc (randomBytes4 (v0, v1, v2, v3)) = Some video_ssrc
    /\ make_ssrc (randomBytes4 (a0, a1, a2, a3)) = Some audio_ssrc
    /\ readInt32BE [x00; v1; v2; v3] 0 = Some video_ssrc
    /\ readInt32BE [x00; a1; a2; a3] 0 = Some audio_ssrc.
Proof.
  intros video_ssrc audio_ssrc.
  assert (Hv : 0 <= video_ssrc < 16777216).
  { subst video_ssrc. pose proof (byte_val_range v1).
    pose proof (byte_val_range v2). pose proof (byte_val_range v3). lia. }
  assert (Ha : 0 <= audio_ssrc < 16777216).
  { subst audio_ssrc. pose proof (byte_val_range a1).
    pose proof (byte_val_range a2). pose proof (byte_val_range a3). lia. }
  assert (Htop : forall x, 0 <= x < 16777216 -> Z.shiftr x 24 = 0).
  { intros x Hx. rewrite Z.shiftr_div_pow2 by lia.
    apply Z.div_small. change (2 ^ 24) with 16777216. exact Hx. }
  unfold prepareStream.
  destruct (prepare_media_bytes (p_video req) v0 v1 v2 v3) as (rv & Hrv & Sv).
  destruct (prepare_media_bytes (p_audio req) a0 a1 a2 a3) as (ra & Hra & Sa).
  destruct (prepare_media_range (p_video req) (v0, v1, v2, v3))
    as (rv' & Hrv' & Rv).
  destruct (prepare_media_range (p_audio req) (a0, a1, a2, a3))
    as (ra' & Hra' & Ra).
  rewrite Hrv in Hrv'. injection Hrv' as <-.
  rewrite Hra in Hra'. injection Hra' as <-.
  rewrite Hrv, Hra. eexists. split; [now apply appended_app|].
  cbn [r_video r_audio].
  split; [exact Sv|]. split; [exact Sa|]. split; [exact Hv|].
  split; [exact Ha|]. split; [exact (Htop _ Hv)|].
  split; [exact (Htop _ Ha)|]. split; [exact Rv|]. split; [exact Ra|].
  repeat split.
Qed.

(** ** Backoff of the event subscription *)

Lemma on_event_connected cfg data c :
  on_event cfg CONNECTED data c = set_failures 0 c.
Proof.
  unfold on_event. simpl.
  destruct (accessory c), data as [d|]; try reflexivity.
  destruct (concerns cfg d); reflexivity.
Qed.

Lemma rate_limited_counter cfg k c :
  nSocketConnectFailures (rate_limited cfg k c)
  = nSocketConnectFailures c + Z.of_nat k.
Proof.
  induction k as [|k IH]; [simpl; lia|].
  change (rate_limited cfg (S k) c)
    with (startListening cfg RateLimitError (rate_limited cfg k c)).
  cbn [startListening set_failures nSocketConnectFailures emit].
  rewrite IH. lia.
Qed.

Lemma rate_limited_next cfg k c :
  trace (rate_limited cfg (S k) c)
  = trace (rate_limited cfg k c)
    ++ [SetTimeout (2 ^ (nSocketConnectFailures c + Z.of_nat k)
                    * SOCKET_RETRY_INTERVAL (env cfg)) Relisten].
Proof.
  change (rate_limited cfg (S k) c)
    with (startListening cfg RateLimitError (rate_limited cfg k c)).
  simpl. now rewrite rate_limited_counter.
Qed.

Lemma retry_delays_app (c c' : camera) l :
  trace c' = trace c ++ l ->
  retry_delays c'
  = retry_delays c
    ++ omap (fun e => match e with
                      | SetTimeout d Relisten => Some d
                      | _ => None
                      end) l.
Proof. intros H. unfold retry_delays. rewrite H. apply omap_app. Qed.

(** C9: the CONNECTED event sets the failure counter to zero; from
    there, after [k] RateLimitErrors in a row the counter is [k] and the
    next one sets the retry timer to [2^k] times the base interval, so
    that three in a row give base, 2*base and 4*base. *)
Theorem backoff_doubles (cfg : camera_config) (data : option event_data)
    (c : camera) (k : nat) :
  let base := SOCKET_RETRY_INTERVAL (env cfg) in
  let c0 := on_event cfg CONNECTED data c in
  nSocketConnectFailures c0 = 0
  /\ nSocketConnectFailures (rate_limited cfg k c0) = Z.of_nat k
  /\ appended (rate_limited cfg k c0) (rate_limited cfg (S k) c0)
     = [SetTimeout (2 ^ Z.of_nat k * base) Relisten]
  /\ retry_delays (rate_limited cfg 3 c0)
     = retry_delays c ++ [base; 2 * base; 4 * base].
Proof.
  intros base c0. subst c0. rewrite on_event_connected.
  split; [reflexivity|]. split; [now rewrite rate_limited_counter|].
  split.
  - apply appended_app. now rewrite rate_limited_next.
  - set (c0 := set_failures 0 c).
    rewrite (retry_delays_app c0 (rate_limited cfg 3 c0)
               [SetTimeout base Relisten; SetTimeout (2 * base) Relisten;
                SetTimeout (4 * base) Relisten]).
    + reflexivity.
    + rewrite !rate_limited_next. simpl. rewrite <- !app_assoc. simpl.
      change (2 ^ (0 + Z.of_nat 0)) with 1.
      change (2 ^ (0 + Z.of_nat 1)) with 2.
      change (2 ^ (0 + Z.of_nat 2)) with 4.
      fold base. replace (1 * base) with base by lia. reflexivity.
Qed.

(** ** Exit of the transcoder *)

(** C8: when the transcoder closes with code 0, 255 or null nothing is
    invoked; with any other code before the first stderr output the
    callback of the start request gets an error; with any other code
    after it the streaming session is forcibly stopped and the callback
    is left alone. *)
Theorem close_handling (c : camera) (pid : nat) (p : proc) (code : option Z) :
  procs c !! pid = Some p ->
  (code = None \/ code = Some 0 \/ code = Some 255 ->
   on_close pid code c = c)
  /\ (forall n, code = Some n -> n <> 0 -> n <> 255 ->
        proc_started p = false ->
        appended c (on_close pid code c)
        = [Callback (proc_callback p) (CbErr (exit_message n))])
  /\ (forall n, code = Some n -> n <> 0 -> n <> 255 ->
        proc_started p = true ->
        appended c (on_close pid code c) = [ForceStop (proc_session p)]
        /\ callbacks (proc_callback p) (on_close pid code c)
           = callbacks (proc_callback p) c).
Proof.
  intros Hp. unfold on_close. rewrite Hp. repeat split.
  - intros [->|[->| ->]]; reflexivity.
  - intros n -> H0 H255 ->. simpl.
    destruct (Z.eqb_spec n 0); [contradiction|].
    destruct (Z.eqb_spec n 255); [contradiction|]. simpl.
    now apply appended_app.
  - match goal with H : code = Some n |- _ => rewrite H end. simpl.
    destruct (Z.eqb_spec n 0); [contradiction|].
    destruct (Z.eqb_spec n 255); [contradiction|]. simpl.
    match goal with H : proc_started p = true |- _ => rewrite H end.
    now apply appended_app.
  - match goal with H : code = Some n |- _ => rewrite H end. simpl.
    destruct (Z.eqb_spec n 0); [contradiction|].
    destruct (Z.eqb_spec n 255); [contradiction|]. simpl.
    match goal with H : proc_started p = true |- _ => rewrite H end.
    erewrite callbacks_app by reflexivity. simpl. lia.
Qed.

Lemma close_handling_witness :
  procs (on_stderr 0 sample_streaming) !! 0%nat
  = Some {| proc_session := "s1"; proc_callback := 1; proc_started := true |}
  /\ on_close 0 (Some 255) (on_stderr 0 sample_streaming)
     = on_stderr 0 sample_streaming
  /\ appended (on_stderr 0 sample_streaming)
       (on_close 0 (Some 1) (on_stderr 0 sample_streaming))
     = [ForceStop "s1"].
Proof.
  split; [reflexivity|]. split.
  - apply (close_handling (on_stderr 0 sample_streaming) 0 _ (Some 255) eq_refl).
    right. right. reflexivity.
  - apply (close_handling (on_stderr 0 sample_streaming) 0 _ (Some 1) eq_refl)
      with (n := 1); [reflexivity | lia | lia | reflexivity].
Defined.

(** ** Width clamp of the bundled binary *)

Lemma alter_first_frame key f args i a :
  args !! i = Some a -> flag_is key a = false ->
  alter_first key f args !! i = Some a.
Proof.
  revert i. induction args as [|x rest IH]; intros i Hi Ha; [discriminate|].
  simpl. destruct i as [|i]; simpl in Hi.
  - injection Hi as ->. now rewrite Ha.
  - destruct (flag_is key x); simpl; auto.
Qed.

Lemma alter_first_length key f args :
  length (alter_first key f args) = length args.
Proof.
  induction args as [|x rest IH]; simpl; [reflexivity|].
  destruct (flag_is key x); simpl; auto.
Qed.

(** C10: with the bundled binary in docker and no custom binary, the clamp
    leaves the source and audio groups as built, keeps the length of the
    video group and every argument of it that is not '-vf', and puts the
    width clamped to 720 into the '-vf' argument alone; the '-i' URL still
    carries the width that was requested. *)
Theorem clamp_rewrites_only_vf (cfg : camera_config) (token : string)
    (ip : option string) (p : stream_params) (info : session_info)
    (g : arg_groups) :
  docker_bundled cfg = true ->
  initial_args cfg token ip p info = Some g ->
  let g' := docker_rewrite cfg p g in
  sourceArgs g' = sourceArgs g
  /\ audioArgs g' = audioArgs g
  /\ length (videoArgs g') = length (videoArgs g)
  /\ (forall i a, videoArgs g !! i = Some a -> flag_is "-vf" a = false ->
        videoArgs g' !! i = Some a)
  /\ (exists before after,
        videoArgs g
        = before ++ [VStr "-vf"; VStr (scale_filter (width p))] :: after
        /\ videoArgs g'
           = before
             ++ [VStr "-vf"; VStr (scale_filter (Z.min (width p) 720))]
                :: after
        /\ Forall (fun a => flag_is "-vf" a = false) (before ++ after))
  /\ In [VStr "-i";
         VStr ("https://" +:+ show_opt ip +:+ "/v1/"
               +:+ uuid (cameraDetails cfg) +:+ "/flv?x="
               +:+ show_num (width p) +:+ "&audioEncoding=AAC")]
       (sourceArgs g').
Proof.
  intros Hdocker Hg g'. subst g'. unfold docker_rewrite. rewrite Hdocker.
  unfold initial_args in Hg.
  destruct (video_info info) as [vm|]; [|discriminate].
  destruct (audio_info info) as [am|]; [|discriminate].
  injection Hg as <-. cbn [clamp_width sourceArgs videoArgs audioArgs].
  split; [reflexivity|]. split; [reflexivity|].
  split; [apply alter_first_length|].
  split; [intros i a; apply alter_first_frame|].
  split.
  - exists (firstn 7 (initial_videoArgs p (address info) vm)),
           (skipn 8 (initial_videoArgs p (address info) vm)).
    split; [reflexivity|]. split; [reflexivity|].
    repeat constructor.
  - right. right. left. reflexivity.
Qed.

Lemma clamp_rewrites_only_vf_witness :
  docker_bundled sample_cfg = true
  /\ In [VStr "-i";
         VStr "https://52.1.2.3/v1/cam-uuid/flv?x=1280&audioEncoding=AAC"]
       (sourceArgs
          (docker_rewrite sample_cfg
             (stream_parameters sample_details sample_video sample_audio)
             {| sourceArgs :=
                  initial_sourceArgs "token" (Some "52.1.2.3") "cam-uuid"
                    (stream_parameters sample_details sample_video sample_audio);
                videoArgs :=
                  initial_videoArgs
                    (stream_parameters sample_details sample_video sample_audio)
                    "192.168.1.20"
                    {| m_port := 50000; m_srtp := [x01; x02; x03];
                       m_ssrc := 1193046 |};
                audioArgs :=
                  initial_audioArgs
                    (stream_parameters sample_details sample_video sample_audio)
                    "192.168.1.20"
                    {| m_port := 50000; m_srtp := [x01; x02; x03];
                       m_ssrc := 1193046 |} |})).
Proof.
  split; [reflexivity|].
  refine (proj2 (proj2 (proj2 (proj2 (proj2
    (clamp_rewrites_only_vf sample_cfg "token" (Some "52.1.2.3")
       (stream_parameters sample_details sample_video sample_audio)
       {| address := "192.168.1.20";
          video_info := Some {| m_port := 50000; m_srtp := [x01; x02; x03];
                                m_ssrc := 1193046 |};
          audio_info := Some {| m_port := 50000; m_srtp := [x01; x02; x03];
                                m_ssrc := 1193046 |} |}
       _ eq_refl eq_refl)))))).
Defined.

(** ** Tactics for states and traces *)

Ltac state_simpl :=
  cbn [trace pendingSessions ongoingSessions serverIpAddress
       motionIsTriggered nSocketConnectFailures accessory procs emit
       set_pending set_ongoing set_ip set_motion set_failures set_accessory
       set_procs delete_pending lookup_media] in *.

Ltac trace_eq := state_simpl; rewrite <- ?app_assoc; reflexivity.

Ltac appended_is := apply appended_app; trace_eq.

(** ** Snapshot requests *)

Lemma strict_eq_open v : strict_eq v (VStr "open") = true <-> v = VStr "open".
Proof.
  destruct v; simpl; split; try discriminate; try congruence.
  - intros H. apply String.eqb_eq in H. now subst.
  - intros [= ->]. reflexivity.
Qed.

Lemma shutter_closed_setting d st v :
  shutter_setting d st = Some v -> v <> VStr "open" ->
  shutter_closed d st = true.
Proof.
  unfold shutter_setting, shutter_closed.
  destruct (String.eqb st "OFF"); [|destruct (String.eqb st "HOME");
    [|destruct (String.eqb st "AWAY"); [|discriminate]]];
    intros [= ->] Hv; apply negb_true_iff;
    destruct (strict_eq v (VStr "open")) eqn:E; auto;
    apply strict_eq_open in E; contradiction.
Qed.

Lemma snapshot_fetch_trace cfg rid w token dns img c :
  trace (snapshot_fetch cfg rid w token dns img c)
  = trace c
    ++ [DnsLookup media_host;
        Fetch (snapshot_url cfg (lookup_media dns c) w) ("Bearer " +:+ token);
        Callback rid match img with
                     | Image i => CbOk (CbImage i)
                     | FetchFails e => CbErr e
                     end].
Proof.
  unfold snapshot_fetch. destruct img, dns; trace_eq.
Qed.

(** C7, as the code has it: a snapshot request for a model without
    shutter never queries the alarm state, and neither does one made
    while the motion flag is set, which goes straight to the lookup and
    the fetch; a request that passes the rate-limit check, for the
    shutter model with the motion flag clear, whose shutter setting for
    the alarm state OFF, HOME or AWAY is anything but the string 'open',
    queries the alarm state and fails with the privacy error, with no
    lookup and no fetch. *)
Theorem snapshot_privacy_gate (cfg : camera_config) (rid : nat)
    (g : rate_gate) (w : Z) (token : string) (alarm : alarm_answer)
    (dns : dns_answer) (img : fetch_answer) (c : camera) :
  let c' := handleSnapshotRequest cfg rid g w token alarm dns img c in
  (model (cameraDetails cfg) <> "SS001" -> ~ In AlarmQuery (appended c c'))
  /\ (motionIsTriggered c = true -> ~ In AlarmQuery (appended c c'))
  /\ (blocked g = false -> motionIsTriggered c = true ->
      c' = snapshot_fetch cfg rid w token dns img c)
  /\ (blocked g = false -> model (cameraDetails cfg) = "SS001" ->
      motionIsTriggered c = false ->
      forall st v, alarm = AlarmState st ->
        shutter_setting (cameraDetails cfg) st = Some v ->
        v <> VStr "open" ->
        appended c c' = [AlarmQuery; Callback rid (CbErr "Privacy shutter closed")]).
Proof.
  intros c'. subst c'. unfold handleSnapshotRequest.
  assert (Hfetch : ~ In AlarmQuery
            (appended c (snapshot_fetch cfg rid w token dns img c))).
  { erewrite appended_app by apply snapshot_fetch_trace.
    simpl. intros [H|[H|[H|[]]]]; discriminate. }
  assert (Hblocked : ~ In AlarmQuery
            (appended c (emit (Callback rid
               (CbErr "Camera snapshot request blocked (rate limited)")) c))).
  { erewrite appended_app by trace_eq. simpl. intros [H|[]]; discriminate. }
  repeat split.
  - intros Hmodel. destruct (blocked g); [exact Hblocked|].
    apply String.eqb_neq in Hmodel. rewrite Hmodel, andb_false_r.
    exact Hfetch.
  - intros Hmotion. destruct (blocked g); [exact Hblocked|].
    rewrite Hmotion. exact Hfetch.
  - intros -> ->. reflexivity.
  - intros -> Hmodel -> st v -> Hset Hv.
    apply String.eqb_eq in Hmodel. rewrite Hmodel. simpl.
    rewrite (shutter_closed_setting _ _ _ Hset Hv). appended_is.
Qed.

Lemma snapshot_privacy_gate_witness :
  blocked open_gate = false
  /\ shutter_setting sample_details "HOME" = Some (VStr "closed")
  /\ appended construct
       (handleSnapshotRequest sample_cfg 0 open_gate 640 "token"
          (AlarmState "HOME") (Resolved "52.1.2.3") (Image []) construct)
     = [AlarmQuery; Callback 0 (CbErr "Privacy shutter closed")].
Proof.
  split; [reflexivity|]. split; [reflexivity|].
  apply (snapshot_privacy_gate sample_cfg 0 open_gate 640 "token"
           (AlarmState "HOME") (Resolved "52.1.2.3") (Image []) construct)
    with (st := "HOME") (v := VStr "closed");
    try reflexivity. discriminate.
Defined.

(** C7 as stated fails for a request that the rate-limit check refuses:
    with the shutter model, the motion flag clear, the alarm state HOME
    and the HOME shutter closed, the error is the rate-limit one. *)
Lemma snapshot_rate_limited_not_privacy :
  model (cameraDetails sample_cfg) = "SS001"
  /\ motionIsTriggered construct = false
  /\ shutter_setting (cameraDetails sample_cfg) "HOME" = Some (VStr "closed")
  /\ appended construct
       (handleSnapshotRequest sample_cfg 0 closed_gate 640 "token"
          (AlarmState "HOME") (Resolved "52.1.2.3") (Image []) construct)
     = [Callback 0 (CbErr "Camera snapshot request blocked (rate limited)")]
  /\ ~ In (Callback 0 (CbErr "Privacy shutter closed"))
        (trace
           (handleSnapshotRequest sample_cfg 0 closed_gate 640 "token"
              (AlarmState "HOME") (Resolved "52.1.2.3") (Image []) construct)).
Proof.
  repeat split. intros [H|[]]. discriminate.
Qed.

(** ** Session maps *)

Ltac stream_cases :=
  unfold handleStreamRequest, start_stream, stop_stream, spawn_transcoder,
    lookup_media;
  repeat match goal with
         | |- context [match ?x with _ => _ end] => destruct x eqn:?
         end.

(** What a stream request does to the two maps. *)
Lemma stream_maps cfg rid req g token dns c :
  let c' := handleStreamRequest cfg rid req g token dns c in
  (pendingSessions c' = pendingSessions c
   /\ ongoingSessions c' = ongoingSessions c)
  \/ (exists sid,
        pendingSessions c' = delete sid (pendingSessions c)
        /\ ongoingSessions c' = ongoingSessions c)
  \/ (exists sid pid,
        pendingSessions c' = delete sid (pendingSessions c)
        /\ ongoingSessions c' = <[sid := pid]> (ongoingSessions c))
  \/ (exists sid,
        pendingSessions c' = pendingSessions c
        /\ ongoingSessions c' = delete sid (ongoingSessions c)).
Proof.
  intros c'. subst c'. stream_cases; state_simpl;
    first [ left; split; reflexivity
          | right; left; eexists; split; reflexivity
          | right; right; left; eexists; eexists; split; reflexivity
          | right; right; right; eexists; split; reflexivity ].
Qed.

Lemma other_maps cfg c i :
  match i with InPrepare _ _ _ _ _ _ | InStream _ _ _ _ _ => False | _ => True end ->
  pendingSessions (step cfg c i) = pendingSessions c
  /\ ongoingSessions (step cfg c i) = ongoingSessions c.
Proof.
  destruct i; simpl; try contradiction; intros _.
  - split; reflexivity.
  - split; reflexivity.
  - unfold getState. destruct (blocked g); split; reflexivity.
  - unfold handleSnapshotRequest, snapshot_fetch, lookup_media.
    repeat match goal with
           | |- context [match ?x with _ => _ end] => destruct x eqn:?
           end; split; reflexivity.
  - unfold on_stderr. destruct (procs c !! pid) as [p|]; [|split; reflexivity].
    destruct (proc_started p); split; reflexivity.
  - unfold on_error. destruct (procs c !! pid); split; reflexivity.
  - unfold on_close.
    repeat match goal with
           | |- context [match ?x with _ => _ end] => destruct x eqn:?
           end; split; reflexivity.
  - destruct ans; split; reflexivity.
  - unfold on_event, on_socket_event, on_camera_event.
    repeat match goal with
           | |- context [match ?x with _ => _ end] => destruct x eqn:?
           end; split; reflexivity.
  - split; reflexivity.
Qed.

Lemma prepare_maps rid req ev ea my_ip is_v4 c :
  let c' := prepareStream rid req ev ea my_ip is_v4 c in
  ongoingSessions c' = ongoingSessions c
  /\ exists info,
       pendingSessions c' = <[p_sessionID req := info]> (pendingSessions c).
Proof.
  intros c'. subst c'. unfold prepareStream.
  destruct (prepare_media_range (p_video req) ev) as (v & -> & _).
  destruct (prepare_media_range (p_audio req) ea) as (a & -> & _).
  split; [reflexivity|]. eexists. reflexivity.
Qed.

Lemma step_exclusive cfg c i :
  sessions_exclusive c ->
  match i with
  | InPrepare _ req _ _ _ _ => ongoingSessions c !! p_sessionID req = None
  | _ => True
  end ->
  sessions_exclusive (step cfg c i).
Proof.
  intros Hex Hfresh sid.
  destruct i as [rid|d|rid g v|rid g w token alarm dns img
                |rid req ev ea my_ip is_v4|rid req g token dns|pid|pid err
                |pid code|ans|ev data|];
    try (unfold sessions_exclusive in Hex;
         match goal with
         | |- context [step cfg c ?i] =>
             destruct (other_maps cfg c i I) as [-> ->]
         end; apply Hex).
  - simpl. destruct (prepare_maps rid req ev ea my_ip is_v4 c) as (-> & info & ->).
    destruct (decide (p_sessionID req = sid)) as [<-|Hne].
    + now right.
    + rewrite lookup_insert_ne by assumption. apply Hex.
  - simpl.
    destruct (stream_maps cfg rid req g token dns c)
      as [[-> ->]|[(s & -> & ->)|[(s & pid & -> & ->)|(s & -> & ->)]]].
    + apply Hex.
    + destruct (Hex sid) as [H|H]; [left|now right].
      rewrite lookup_delete. case_decide; auto.
    + destruct (decide (s = sid)) as [<-|Hne].
      * left. apply lookup_delete_eq.
      * rewrite lookup_delete_ne, lookup_insert_ne by assumption. apply Hex.
    + destruct (Hex sid) as [H|H]; [now left|right].
      rewrite lookup_delete. case_decide; auto.
Qed.

Lemma run_exclusive cfg ins : forall c,
  sessions_exclusive c -> prepares_fresh cfg c ins ->
  sessions_exclusive (run cfg c ins).
Proof.
  induction ins as [|i rest IH]; intros c Hex Hfresh; [exact Hex|].
  destruct Hfresh as [Hi Hrest]. simpl. apply IH; [|exact Hrest].
  now apply step_exclusive.
Qed.

Lemma construct_exclusive : sessions_exclusive construct.
Proof. intros sid. left. apply lookup_empty. Qed.

Lemma start_consumes_pending cfg rid sid v a g token dns c :
  let c' := handleStreamRequest cfg rid
              {| s_sessionID := Some sid; s_type := "start"; s_video := v;
                 s_audio := a |} g token dns c in
  ~ In Uncaught (appended c c') -> pendingSessions c' !! sid = None.
Proof.
  intros c'. subst c'. unfold handleStreamRequest.
  cbn [s_sessionID s_type s_video s_audio].
  change (String.eqb "start" "start") with true. cbv iota.
  unfold start_stream, spawn_transcoder, lookup_media.
  cbn [s_sessionID s_type s_video s_audio].
  repeat match goal with
         | |- context [match ?x with _ => _ end] => destruct x eqn:?
         end;
    intros Hrun;
    first [ state_simpl; apply lookup_delete_eq
          | exfalso; apply Hrun; erewrite appended_app by trace_eq;
            simpl; tauto ].
Qed.

Lemma stop_removes_ongoing cfg rid sid v a g token dns c :
  let c' := handleStreamRequest cfg rid
              {| s_sessionID := Some sid; s_type := "stop"; s_video := v;
                 s_audio := a |} g token dns c in
  ongoingSessions c' !! sid = None
  /\ pendingSessions c' = pendingSessions c.
Proof.
  intros c'. subst c'. unfold handleStreamRequest, stop_stream.
  cbn [s_sessionID s_type]. change (String.eqb "stop" "start") with false.
  change (String.eqb "stop" "stop") with true. cbv iota.
  destruct (ongoingSessions c !! sid); state_simpl;
    (split; [apply lookup_delete_eq | reflexivity]).
Qed.

(** C2, as the code has it: as long as no prepare request names an
    identifier that has an ongoing session, no identifier is a key of
    both maps after any run of requests and handlers; a prepare request
    puts its session into the pending map; a 'start' request that runs to
    its end leaves no pending session under its identifier, whether it
    spawned a process or not; a 'stop' request leaves no ongoing session
    under its identifier. *)
Theorem sessions_stay_exclusive (cfg : camera_config) (c : camera)
    (ins : list input) :
  sessions_exclusive c ->
  prepares_fresh cfg c ins ->
  sessions_exclusive (run cfg c ins)
  /\ (forall rid req ev ea my_ip is_v4 c1,
        is_Some (pendingSessions (prepareStream rid req ev ea my_ip is_v4 c1)
                 !! p_sessionID req))
  /\ (forall rid sid v a g token dns c1,
        let c2 := handleStreamRequest cfg rid
                    {| s_sessionID := Some sid; s_type := "start";
                       s_video := v; s_audio := a |} g token dns c1 in
        ~ In Uncaught (appended c1 c2) -> pendingSessions c2 !! sid = None)
  /\ (forall rid sid v a g token dns c1,
        ongoingSessions
          (handleStreamRequest cfg rid
             {| s_sessionID := Some sid; s_type := "stop"; s_video := v;
                s_audio := a |} g token dns c1) !! sid = None).
Proof.
  intros Hex Hfresh. split; [now apply run_exclusive|]. split; [|split].
  - intros rid req ev ea my_ip is_v4 c1.
    destruct (prepare_maps rid req ev ea my_ip is_v4 c1) as (_ & info & ->).
    rewrite lookup_insert_eq. eauto.
  - intros rid sid v a g token dns c1. apply start_consumes_pending.
  - intros rid sid v a g token dns c1.
    apply (stop_removes_ongoing cfg rid sid v a g token dns c1).
Qed.

Lemma sessions_stay_exclusive_witness :
  sessions_exclusive construct
  /\ prepares_fresh sample_cfg construct
       [InPrepare 0 sample_prepare sample_entropy sample_entropy
          "192.168.1.2" true;
        InStream 1 sample_start open_gate "token" (Resolved "52.1.2.3");
        InStderr 0;
        InStream 2 sample_stop open_gate "token" (Resolved "52.1.2.3")]
  /\ sessions_exclusive
       (run sample_cfg construct
          [InPrepare 0 sample_prepare sample_entropy sample_entropy
             "192.168.1.2" true;
           InStream 1 sample_start open_gate "token" (Resolved "52.1.2.3");
           InStderr 0;
           InStream 2 sample_stop open_gate "token" (Resolved "52.1.2.3")]).
Proof.
  assert (Hfresh : prepares_fresh sample_cfg construct
       [InPrepare 0 sample_prepare sample_entropy sample_entropy
          "192.168.1.2" true;
        InStream 1 sample_start open_gate "token" (Resolved "52.1.2.3");
        InStderr 0;
        InStream 2 sample_stop open_gate "token" (Resolved "52.1.2.3")]).
  { simpl. repeat split. }
  split; [exact construct_exclusive|]. split; [exact Hfresh|].
  exact (proj1 (sessions_stay_exclusive sample_cfg construct _
                  construct_exclusive Hfresh)).
Defined.

(** C2 as stated fails: a prepare request that names the identifier of an
    ongoing session makes the identifier a key of both maps. *)
Lemma prepare_over_ongoing_in_both :
  ~ sessions_exclusive
      (run sample_cfg construct
         [InPrepare 0 sample_prepare sample_entropy sample_entropy
            "192.168.1.2" true;
          InStream 1 sample_start open_gate "token" (Resolved "52.1.2.3");
          InPrepare 2 sample_prepare sample_entropy sample_entropy
            "192.168.1.2" true]).
Proof.
  intros H. destruct (H "s1") as [H1|H1]; vm_compute in H1; discriminate.
Qed.

(** ** Start of a stream *)

(** A start request that spawns a process. *)
Lemma start_spawn cfg rid req g token dns c pid bin argv :
  let c' := handleStreamRequest cfg rid req g token dns c in
  In (Spawn pid bin argv) (appended c c') ->
  exists sid,
    s_sessionID req = Some sid
    /\ procs c' = procs c ++ [{| proc_session := sid; proc_callback := rid;
                                 proc_started := false |}]
    /\ pid = length (procs c)
    /\ ongoingSessions c' !! sid = Some pid
    /\ pendingSessions c' !! sid = None
    /\ trace c' = trace c ++ [DnsLookup media_host; Spawn pid bin argv].
Proof.
  intros c'. subst c'. stream_cases; intros Hin;
    first [ rewrite appended_same in Hin by reflexivity
          | erewrite appended_app in Hin by trace_eq ];
    cbn [In] in Hin;
    try (repeat match type of Hin with
                | _ \/ _ => destruct Hin as [Hin|Hin]
                end; (discriminate || contradiction)).
  all: destruct Hin as [Hin|[Hin|[]]]; try discriminate;
    injection Hin as <- <- <-; eexists; refine (conj eq_refl _);
    state_simpl;
    repeat split;
    first [ apply lookup_insert_eq | apply lookup_delete_eq | trace_eq ].
Qed.

Lemma procs_after_stderr pid p c :
  procs c !! pid = Some p ->
  procs (on_stderr pid c) !! pid
  = Some {| proc_session := proc_session p; proc_callback := proc_callback p;
            proc_started := true |}.
Proof.
  intros Hp. unfold on_stderr. rewrite Hp.
  destruct p as [s r []]; simpl; [exact Hp|].
  unfold mark_started. state_simpl. rewrite list_lookup_alter_eq, Hp.
  reflexivity.
Qed.

Lemma first_stderr_calls_back pid p c :
  procs c !! pid = Some p -> proc_started p = false ->
  trace (on_stderr pid c)
  = trace c ++ [Callback (proc_callback p) (CbOk CbNothing)].
Proof.
  intros Hp Hs. unfold on_stderr. rewrite Hp, Hs. reflexivity.
Qed.

(** Once [started] is set, output lines and exits of the process invoke
    no callback. *)
Lemma started_is_quiet cfg pid rid evs : forall c p,
  procs c !! pid = Some p -> proc_started p = true ->
  forallb (output_or_exit pid) evs = true ->
  callbacks rid (run cfg c evs) = callbacks rid c.
Proof.
  induction evs as [|i evs IH]; intros c p Hp Hs Hevs; [reflexivity|].
  simpl in Hevs. apply andb_true_iff in Hevs as [Hi Hevs]. simpl.
  destruct i; simpl in Hi; try discriminate;
    apply Nat.eqb_eq in Hi; subst.
  - simpl. unfold on_stderr. rewrite Hp, Hs. eauto.
  - simpl. unfold on_close. rewrite Hp.
    destruct code as [n|]; [|eauto].
    destruct (normal_exit (Some n)); [eauto|]. rewrite Hs.
    erewrite IH; [| exact Hp | exact Hs | exact Hevs].
    erewrite callbacks_app by reflexivity. simpl. lia.
Qed.

Lemma output_after_spawn cfg rid pid evs c p :
  procs c !! pid = Some p -> proc_started p = false -> proc_callback p = rid ->
  forallb (output_or_exit pid) evs = true ->
  callbacks rid (run cfg c (InStderr pid :: evs)) = S (callbacks rid c).
Proof.
  intros Hp Hs Hr Hevs. simpl.
  erewrite started_is_quiet;
    [| apply procs_after_stderr; eassumption | reflexivity | assumption].
  erewrite callbacks_app by (apply first_stderr_calls_back; eassumption).
  rewrite Hr. simpl. rewrite Nat.eqb_refl. simpl. lia.
Qed.

(** ** Completion callbacks *)

Lemma prepareStream_trace rid req ev ea my_ip is_v4 c :
  exists resp,
    trace (prepareStream rid req ev ea my_ip is_v4 c)
    = trace c ++ [Callback rid (CbOk (CbResponse resp))].
Proof.
  unfold prepareStream.
  destruct (prepare_media_range (p_video req) ev) as (v & -> & _).
  destruct (prepare_media_range (p_audio req) ea) as (a & -> & _).
  eexists. reflexivity.
Qed.

Lemma snapshot_calls_back cfg rid g w token st dns img c :
  callbacks rid
    (handleSnapshotRequest cfg rid g w token (AlarmState st) dns img c)
  = S (callbacks rid c).
Proof.
  unfold handleSnapshotRequest.
  destruct (blocked g).
  { erewrite callbacks_app by reflexivity. simpl. rewrite Nat.eqb_refl.
    simpl. lia. }
  destruct (negb (motionIsTriggered c) && _).
  - destruct (shutter_closed (cameraDetails cfg) st).
    + erewrite callbacks_app by trace_eq. simpl. rewrite Nat.eqb_refl.
      simpl. lia.
    + erewrite callbacks_app
        by (rewrite snapshot_fetch_trace; trace_eq).
      simpl. rewrite Nat.eqb_refl. simpl. lia.
  - erewrite callbacks_app by apply snapshot_fetch_trace.
    simpl. rewrite Nat.eqb_refl. simpl. lia.
Qed.

Lemma stop_calls_back cfg rid sid v a g token dns c :
  callbacks rid
    (handleStreamRequest cfg rid
       {| s_sessionID := Some sid; s_type := "stop"; s_video := v;
          s_audio := a |} g token dns c)
  = S (callbacks rid c).
Proof.
  unfold handleStreamRequest, stop_stream. cbn [s_sessionID s_type].
  change (String.eqb "stop" "start") with false.
  change (String.eqb "stop" "stop") with true. cbv iota.
  destruct (ongoingSessions c !! sid);
    erewrite callbacks_app by trace_eq; simpl; rewrite Nat.eqb_refl;
    simpl; lia.
Qed.

Lemma start_refusals cfg rid sid v a g token dns c :
  let c' := handleStreamRequest cfg rid
              {| s_sessionID := Some sid; s_type := "start"; s_video := v;
                 s_audio := a |} g token dns c in
  (blocked g = true ->
   appended c c'
   = [Callback rid (CbErr "Camera stream request blocked (rate limited)")])
  /\ (blocked g = false -> pendingSessions c !! sid = None ->
      appended c c' = [])
  /\ (blocked g = false -> is_Some (pendingSessions c !! sid) ->
      forall err, dns = LookupFails err ->
        truthy_str (serverIpAddress c) = false ->
        ~ In Uncaught (appended c c') ->
        appended c c' = [DnsLookup media_host; Callback rid (CbErr err)]).
Proof.
  intros c'. subst c'. unfold handleStreamRequest.
  cbn [s_sessionID s_type s_video s_audio].
  change (String.eqb "start" "start") with true. cbv iota.
  split; [|split].
  - intros ->. appended_is.
  - intros -> ->. now apply appended_same.
  - intros -> [info ->] err -> Hcache. unfold start_stream.
    cbn [s_video s_audio].
    destruct v as [v|], a as [a|];
      try (intros Hrun; exfalso; apply Hrun; erewrite appended_app by trace_eq;
           simpl; tauto).
    cbn [lookup_media serverIpAddress emit]. rewrite Hcache.
    intros _. appended_is.
Qed.

(** C1, as the code has it.  identify, getState, prepareStream and
    'stop' invoke their callback exactly once, and so does
    handleSnapshotRequest once the alarm query has answered.  A 'start'
    request invokes it once, with an error, when the rate-limit check
    refuses it or when the lookup fails with no address cached; it never
    invokes it when no session is pending under the identifier; and when
    it spawns a process it leaves the callback to the handlers: the first
    stderr output invokes it once, with success, and no later output line
    or exit of that process invokes it again. *)
Theorem callback_discipline (cfg : camera_config) (rid : nat) (c : camera) :
  callbacks rid (identify rid c) = S (callbacks rid c)
  /\ (forall g v, callbacks rid (getState rid g v c) = S (callbacks rid c))
  /\ (forall req ev ea my_ip is_v4,
        callbacks rid (prepareStream rid req ev ea my_ip is_v4 c)
        = S (callbacks rid c))
  /\ (forall g w token st dns img,
        callbacks rid
          (handleSnapshotRequest cfg rid g w token (AlarmState st) dns img c)
        = S (callbacks rid c))
  /\ (forall sid v a g token dns,
        callbacks rid
          (handleStreamRequest cfg rid
             {| s_sessionID := Some sid; s_type := "stop"; s_video := v;
                s_audio := a |} g token dns c)
        = S (callbacks rid c))
  /\ (forall sid v a g token dns,
        let c' := handleStreamRequest cfg rid
                    {| s_sessionID := Some sid; s_type := "start";
                       s_video := v; s_audio := a |} g token dns c in
        (blocked g = true ->
         appended c c'
         = [Callback rid
              (CbErr "Camera stream request blocked (rate limited)")])
        /\ (blocked g = false -> pendingSessions c !! sid = None ->
            appended c c' = [])
        /\ (blocked g = false -> is_Some (pendingSessions c !! sid) ->
            forall err, dns = LookupFails err ->
              truthy_str (serverIpAddress c) = false ->
              ~ In Uncaught (appended c c') ->
              appended c c' = [DnsLookup media_host; Callback rid (CbErr err)])
        /\ (forall pid bin argv,
              In (Spawn pid bin argv) (appended c c') ->
              callbacks rid c' = callbacks rid c
              /\ appended c' (on_stderr pid c')
                 = [Callback rid (CbOk CbNothing)]
              /\ forall evs,
                   forallb (output_or_exit pid) evs = true ->
                   callbacks rid (run cfg c' (InStderr pid :: evs))
                   = S (callbacks rid c))).
Proof.
  split.
  { unfold identify. erewrite callbacks_app by reflexivity.
    simpl. rewrite Nat.eqb_refl. simpl. lia. }
  split.
  { intros g v. unfold getState.
    destruct (blocked g); erewrite callbacks_app by reflexivity;
      simpl; rewrite Nat.eqb_refl; simpl; lia. }
  split.
  { intros req ev ea my_ip is_v4.
    destruct (prepareStream_trace rid req ev ea my_ip is_v4 c)
      as (resp & Htrace).
    erewrite callbacks_app by exact Htrace.
    simpl. rewrite Nat.eqb_refl. simpl. lia. }
  split; [intros; apply snapshot_calls_back|].
  split; [intros; apply stop_calls_back|].
  intros sid v a g token dns c'.
  destruct (start_refusals cfg rid sid v a g token dns c) as (H1 & H2 & H3).
  split; [exact H1|]. split; [exact H2|]. split; [exact H3|].
  intros pid bin argv Hspawn.
  destruct (start_spawn cfg rid _ g token dns c pid bin argv Hspawn)
    as (s & _ & Hprocs & Hpid & _ & _ & Htrace).
  fold c' in Hprocs, Htrace.
  assert (Hp : procs c' !! pid
               = Some {| proc_session := s; proc_callback := rid;
                         proc_started := false |}).
  { rewrite Hprocs, Hpid. rewrite lookup_app_r by lia.
    now rewrite Nat.sub_diag. }
  assert (Hsame : callbacks rid c' = callbacks rid c).
  { erewrite callbacks_app by exact Htrace. simpl. lia. }
  split; [exact Hsame|]. split.
  - apply appended_app. now apply (first_stderr_calls_back pid _ c' Hp).
  - intros evs Hevs. rewrite <- Hsame.
    now apply (output_after_spawn cfg rid pid evs c' _ Hp).
Qed.

Lemma callback_discipline_witness :
  (exists argv,
      In (Spawn 0 "ffmpeg" argv) (appended sample_prepared sample_streaming))
  /\ callbacks 1
       (run sample_cfg sample_streaming
          [InStderr 0; InStderr 0; InClose 0 (Some 1); InStderr 0])
     = 1%nat.
Proof.
  assert (Hspawn : exists argv,
             In (Spawn 0 "ffmpeg" argv)
               (appended sample_prepared sample_streaming)).
  { eexists. right. left. reflexivity. }
  split; [exact Hspawn|]. destruct Hspawn as [argv Hspawn].
  destruct (callback_discipline sample_cfg 1 sample_prepared)
    as (_ & _ & _ & _ & _ & Hstart).
  destruct (Hstart "s1" (Some sample_video) (Some sample_audio) open_gate
              "token" (Resolved "52.1.2.3")) as (_ & _ & _ & Hrun).
  destruct (Hrun 0%nat _ _ Hspawn) as (_ & _ & Hevs).
  exact (Hevs [InStderr 0; InClose 0 (Some 1); InStderr 0] eq_refl).
Defined.

(** C1 as stated fails: a 'start' request for an identifier with no
    pending session returns without invoking its callback. *)
Lemma stale_start_never_calls_back :
  callbacks 1
    (handleStreamRequest sample_cfg 1 sample_start open_gate "token"
       (Resolved "52.1.2.3") construct)
  = 0%nat
  /\ callbacks 1
       (handleStreamRequest sample_cfg 1 sample_start open_gate "token"
          (Resolved "52.1.2.3") construct)
     <> 1%nat.
Proof. split; [reflexivity | discriminate]. Qed.

(** The 'error' handler does not look at [started]: an error event of a
    process that has already written to stderr invokes the callback of the
    start request a second time, and so does an error event followed by an
    abnormal exit before any output. *)
Lemma error_handler_calls_again :
  callbacks 1 (run sample_cfg sample_streaming [InStderr 0; InError 0 "EPERM"])
  = 2%nat
  /\ callbacks 1
       (run sample_cfg sample_streaming
          [InError 0 "ENOENT"; InClose 0 (Some (-2))])
     = 2%nat.
Proof. split; reflexivity. Qed.

(** ** Spawn failures *)

(** C4, as the code has it: when the process that a 'start' request
    spawned reports a spawn failure, the callback of that request is
    invoked with the error; the ongoing session, recorded when [spawn]
    returned, is still in the map afterwards, and it is the 'stop'
    request that removes it. *)
Theorem spawn_failure_reported (cfg : camera_config) (rid : nat)
    (req : stream_request) (g : rate_gate) (token : string)
    (dns : dns_answer) (c : camera) (pid : nat) (bin : string)
    (argv : list jsval) (err : string) :
  let c1 := handleStreamRequest cfg rid req g token dns c in
  let c2 := on_error pid err c1 in
  In (Spawn pid bin argv) (appended c c1) ->
  appended c1 c2 = [Callback rid (CbErr err)]
  /\ exists sid,
       s_sessionID req = Some sid
       /\ ongoingSessions c1 !! sid = Some pid
       /\ ongoingSessions c2 !! sid = Some pid
       /\ forall rid' v a g' token' dns',
            ongoingSessions
              (handleStreamRequest cfg rid'
                 {| s_sessionID := Some sid; s_type := "stop"; s_video := v;
                    s_audio := a |} g' token' dns' c2) !! sid = None.
Proof.
  intros c1 c2 Hspawn.
  destruct (start_spawn cfg rid req g token dns c pid bin argv Hspawn)
    as (sid & Hsid & Hprocs & Hpid & Hongoing & _ & _).
  fold c1 in Hprocs, Hongoing.
  assert (Hp : procs c1 !! pid
               = Some {| proc_session := sid; proc_callback := rid;
                         proc_started := false |}).
  { rewrite Hprocs, Hpid. rewrite lookup_app_r by lia.
    now rewrite Nat.sub_diag. }
  subst c2. unfold on_error. rewrite Hp. split; [appended_is|].
  exists sid. split; [exact Hsid|]. split; [exact Hongoing|].
  split; [exact Hongoing|].
  intros rid' v a g' token' dns'. apply stop_removes_ongoing.
Qed.

Lemma spawn_failure_reported_witness :
  (exists argv,
      In (Spawn 0 "ffmpeg" argv) (appended sample_prepared sample_streaming))
  /\ appended sample_streaming
       (on_error 0 "spawn ffmpeg ENOENT" sample_streaming)
     = [Callback 1 (CbErr "spawn ffmpeg ENOENT")].
Proof.
  assert (Hspawn : exists argv,
             In (Spawn 0 "ffmpeg" argv)
               (appended sample_prepared sample_streaming)).
  { eexists. right. left. reflexivity. }
  split; [exact Hspawn|]. destruct Hspawn as [argv Hspawn].
  exact (proj1 (spawn_failure_reported sample_cfg 1 sample_start open_gate
                  "token" (Resolved "52.1.2.3") sample_prepared 0 "ffmpeg"
                  argv "spawn ffmpeg ENOENT" Hspawn)).
Defined.

(** C4 as stated fails: after the spawn failure has been reported, the
    session is in the map of ongoing sessions. *)
Lemma spawn_failure_keeps_ongoing :
  ongoingSessions (on_error 0 "spawn ffmpeg ENOENT" sample_streaming) !! "s1"
  = Some 0%nat
  /\ ongoingSessions (on_error 0 "spawn ffmpeg ENOENT" sample_streaming) !! "s1"
     <> None.
Proof. split; [reflexivity | discriminate]. Qed.

(** ** Address resolution *)

(** A lookup that answers overwrites the cached address, and the fresh
    address is the one that the snapshot URL and the '-i' URL carry; a
    lookup that fails leaves the cached address in place. *)
Lemma lookup_media_address dns c :
  serverIpAddress (lookup_media dns c)
  = match dns with
    | Resolved a => Some a
    | LookupFails _ => serverIpAddress c
    end.
Proof. destruct dns; reflexivity. Qed.

(** The stream path: a failed lookup with no cached address ends the
    request with the lookup error, and nothing is spawned. *)
Lemma start_unresolved_fails cfg rid sid token err info v a c :
  truthy_str (serverIpAddress c) = false ->
  appended c
    (start_stream cfg rid sid
       {| s_sessionID := Some sid; s_type := "start"; s_video := Some v;
          s_audio := Some a |} token (LookupFails err) info c)
  = [DnsLookup media_host; Callback rid (CbErr err)].
Proof.
  intros Hcache. unfold start_stream. cbn [s_video s_audio].
  cbn [lookup_media serverIpAddress emit]. rewrite Hcache. appended_is.
Qed.

(** C5 on the snapshot path, at a failing lookup with no address cached
    (the first request of a new accessory): the request goes on to fetch
    from the host "undefined", and its callback gets whatever the fetch
    gives, not the failure of the lookup. *)
Theorem snapshot_unresolved_still_fetches (rid : nat) (w : Z)
    (token err : string) (img : fetch_answer) :
  trace
    (handleSnapshotRequest sample_cfg rid open_gate w token (AlarmState "OFF")
       (LookupFails err) img construct)
  = [AlarmQuery;
     DnsLookup media_host;
     Fetch ("https://undefined/v1/cam-uuid/mjpg?x=" +:+ show_num w +:+ "&fr=1")
       ("Bearer " +:+ token);
     Callback rid match img with
                  | Image i => CbOk (CbImage i)
                  | FetchFails e => CbErr e
                  end].
Proof. destruct img; reflexivity. Qed.

(** * Further properties of the class *)

(** ** Stop requests *)

(** X1: A 'stop' for an identifier with no ongoing session changes neither
    map, sends no signal and ends with the success callback; the
    rate-limit state plays no part. *)
Theorem stop_without_session (cfg : camera_config) (rid : nat) (sid : string)
    (v : option video_request) (a : option audio_request) (g : rate_gate)
    (token : string) (dns : dns_answer) (c : camera) :
  ongoingSessions c !! sid = None ->
  let c' := handleStreamRequest cfg rid
              {| s_sessionID := Some sid; s_type := "stop"; s_video := v;
                 s_audio := a |} g token dns c in
  appended c c' = [Callback rid (CbOk CbNothing)]
  /\ pendingSessions c' = pendingSessions c
  /\ ongoingSessions c' = ongoingSessions c
  /\ procs c' = procs c.
Proof.
  intros Hnone c'. subst c'. unfold handleStreamRequest, stop_stream.
  cbn [s_sessionID s_type]. change (String.eqb "stop" "start") with false.
  change (String.eqb "stop" "stop") with true. cbv iota. rewrite Hnone.
  split; [appended_is|]. state_simpl. split; [reflexivity|].
  split; [now apply delete_id | reflexivity].
Qed.

Lemma stop_without_session_witness :
  ongoingSessions sample_prepared !! "s1" = None
  /\ appended sample_prepared
       (handleStreamRequest sample_cfg 5 sample_stop closed_gate "token"
          (LookupFails "ENOTFOUND") sample_prepared)
     = [Callback 5 (CbOk CbNothing)].
Proof.
  split; [reflexivity|].
  exact (proj1 (stop_without_session sample_cfg 5 "s1" None None closed_gate
                  "token" (LookupFails "ENOTFOUND") sample_prepared eq_refl)).
Defined.

(** X2: A 'stop' for an ongoing session sends the kill signal to the process
    of that session and to no other, calls back with success, removes
    that entry and leaves every other ongoing session and all pending
    sessions as they were. *)
Theorem stop_kills_ongoing (cfg : camera_config) (rid : nat) (sid : string)
    (v : option video_request) (a : option audio_request) (g : rate_gate)
    (token : string) (dns : dns_answer) (c : camera) (pid : nat) :
  ongoingSessions c !! sid = Some pid ->
  let c' := handleStreamRequest cfg rid
              {| s_sessionID := Some sid; s_type := "stop"; s_video := v;
                 s_audio := a |} g token dns c in
  appended c c' = [Kill pid; Callback rid (CbOk CbNothing)]
  /\ ongoingSessions c' = delete sid (ongoingSessions c)
  /\ (forall sid', sid' <> sid ->
        ongoingSessions c' !! sid' = ongoingSessions c !! sid')
  /\ pendingSessions c' = pendingSessions c.
Proof.
  intros Hsome c'. subst c'. unfold handleStreamRequest, stop_stream.
  cbn [s_sessionID s_type]. change (String.eqb "stop" "start") with false.
  change (String.eqb "stop" "stop") with true. cbv iota. rewrite Hsome.
  split; [appended_is|]. state_simpl. split; [reflexivity|].
  split; [|reflexivity].
  intros sid' Hne. now apply lookup_delete_ne.
Qed.

Lemma stop_kills_ongoing_witness :
  ongoingSessions sample_streaming !! "s1" = Some 0%nat
  /\ appended sample_streaming
       (handleStreamRequest sample_cfg 5 sample_stop open_gate "token"
          (Resolved "52.1.2.3") sample_streaming)
     = [Kill 0; Callback 5 (CbOk CbNothing)].
Proof.
  split; [reflexivity|].
  exact (proj1 (stop_kills_ongoing sample_cfg 5 "s1" None None open_gate
                  "token" (Resolved "52.1.2.3") sample_streaming 0 eq_refl)).
Defined.

(** ** Start requests *)

(** X3: A 'start' consumes the pending session: after a 'start' that ran to
    its end, a second 'start' for the same identifier (with no prepare in
    between) does nothing at all, whatever the first one did. *)
Theorem repeated_start_ignored (cfg : camera_config) (rid rid' : nat)
    (sid : string) (v v' : option video_request)
    (a a' : option audio_request) (g g' : rate_gate) (token token' : string)
    (dns dns' : dns_answer) (c : camera) :
  let c1 := handleStreamRequest cfg rid
              {| s_sessionID := Some sid; s_type := "start"; s_video := v;
                 s_audio := a |} g token dns c in
  let c2 := handleStreamRequest cfg rid'
              {| s_sessionID := Some sid; s_type := "start"; s_video := v';
                 s_audio := a' |} g' token' dns' c1 in
  ~ In Uncaught (appended c c1) ->
  blocked g' = false ->
  appended c1 c2 = []
  /\ procs c2 = procs c1
  /\ ongoingSessions c2 = ongoingSessions c1
  /\ pendingSessions c2 = pendingSessions c1
  /\ serverIpAddress c2 = serverIpAddress c1.
Proof.
  intros c1 c2 Hrun Hgate.
  pose proof (start_consumes_pending cfg rid sid v a g token dns c Hrun)
    as Hgone.
  fold c1 in Hgone. subst c2. unfold handleStreamRequest.
  cbn [s_sessionID s_type]. change (String.eqb "start" "start") with true.
  cbv iota. rewrite Hgate, Hgone.
  split; [now apply appended_same|]. state_simpl.
  repeat split. now apply delete_id.
Qed.

Lemma repeated_start_ignored_witness :
  ~ In Uncaught (appended sample_prepared sample_streaming)
  /\ appended sample_streaming
       (handleStreamRequest sample_cfg 2 sample_start open_gate "token"
          (Resolved "52.1.2.3") sample_streaming)
     = [].
Proof.
  assert (Hrun : ~ In Uncaught (appended sample_prepared sample_streaming)).
  { intros [H|[H|[]]]; discriminate. }
  split; [exact Hrun|].
  exact (proj1 (repeated_start_ignored sample_cfg 1 2 "s1" (Some sample_video)
                  (Some sample_video) (Some sample_audio) (Some sample_audio)
                  open_gate open_gate "token" "token" (Resolved "52.1.2.3")
                  (Resolved "52.1.2.3") sample_prepared Hrun eq_refl)).
Defined.

(** ** Rate limiting *)

(** X4: While the client is rate limited, getState, handleSnapshotRequest and
    a 'start' request each end at once with their error: no alarm query,
    no lookup, no fetch, no spawn; the 'start' also drops the pending
    session of its identifier.  A 'stop' request does not look at the
    rate-limit state. *)
Theorem rate_limit_fails_fast (cfg : camera_config) (rid : nat)
    (g : rate_gate) (c : camera) :
  blocked g = true ->
  (forall value,
      appended c (getState rid g value c)
      = [Callback rid (CbErr "Request blocked (rate limited)")])
  /\ (forall w token alarm dns img,
        handleSnapshotRequest cfg rid g w token alarm dns img c
        = emit (Callback rid
                  (CbErr "Camera snapshot request blocked (rate limited)")) c)
  /\ (forall sid v a token dns,
        handleStreamRequest cfg rid
          {| s_sessionID := Some sid; s_type := "start"; s_video := v;
             s_audio := a |} g token dns c
        = emit (Callback rid
                  (CbErr "Camera stream request blocked (rate limited)"))
            (delete_pending sid c))
  /\ (forall sid v a token dns g',
        handleStreamRequest cfg rid
          {| s_sessionID := Some sid; s_type := "stop"; s_video := v;
             s_audio := a |} g token dns c
        = handleStreamRequest cfg rid
            {| s_sessionID := Some sid; s_type := "stop"; s_video := v;
               s_audio := a |} g' token dns c).
Proof.
  intros Hgate. split; [|split; [|split]].
  - intros value. unfold getState. rewrite Hgate. appended_is.
  - intros. unfold handleSnapshotRequest. now rewrite Hgate.
  - intros. unfold handleStreamRequest. cbn [s_sessionID s_type].
    change (String.eqb "start" "start") with true. cbv iota.
    now rewrite Hgate.
  - reflexivity.
Qed.

Lemma rate_limit_fails_fast_witness :
  blocked closed_gate = true
  /\ pendingSessions
       (handleStreamRequest sample_cfg 1 sample_start closed_gate "token"
          (Resolved "52.1.2.3") sample_prepared) !! "s1"
     = None.
Proof.
  split; [reflexivity|].
  destruct (rate_limit_fails_fast sample_cfg 1 closed_gate sample_prepared
              eq_refl) as (_ & _ & Hstart & _).
  change (handleStreamRequest sample_cfg 1 sample_start closed_gate "token"
            (Resolved "52.1.2.3") sample_prepared)
    with (handleStreamRequest sample_cfg 1
            {| s_sessionID := Some "s1"; s_type := "start";
               s_video := Some sample_video; s_audio := Some sample_audio |}
            closed_gate "token" (Resolved "52.1.2.3") sample_prepared).
  rewrite Hstart. apply lookup_delete_eq.
Defined.

(** ** Resolved address *)

(** Whenever a 'start' request spawns the transcoder, an address is
    cached afterwards and the arguments were built with it: it is the
    fresh one when the lookup answered, and otherwise a non-empty address
    cached before, left as it was.  No transcoder is spawned without an
    address.  The command is the configured binary with the arguments
    built from the session pending under the identifier and from the
    parameters of the request. *)
Lemma spawn_command (cfg : camera_config) (rid : nat)
    (req : stream_request) (g : rate_gate) (token : string)
    (dns : dns_answer) (c : camera) (pid : nat) (bin : string)
    (argv : list jsval) :
  let c' := handleStreamRequest cfg rid req g token dns c in
  In (Spawn pid bin argv) (appended c c') ->
  exists addr,
    serverIpAddress c' = Some addr
    /\ (dns = Resolved addr
        \/ exists err, dns = LookupFails err
                       /\ serverIpAddress c = Some addr
                       /\ nonempty addr = true)
    /\ exists sid info v a groups,
         s_sessionID req = Some sid
         /\ pendingSessions c !! sid = Some info
         /\ s_video req = Some v /\ s_audio req = Some a
         /\ initial_args cfg token (Some addr)
              (stream_parameters (cameraDetails cfg) v a) info
            = Some groups
         /\ bin = ffmpegPath cfg
         /\ argv = command_line
                     (rewrite_args cfg
                        (stream_parameters (cameraDetails cfg) v a) a groups).
Proof.
  intros c'. subst c'. stream_cases; intros Hin;
    first [ rewrite appended_same in Hin by reflexivity
          | erewrite appended_app in Hin by trace_eq ];
    cbn [In] in Hin;
    try (repeat match type of Hin with
                | _ \/ _ => destruct Hin as [Hin|Hin]
                end; (discriminate || contradiction)).
  all: destruct Hin as [Hin|[Hin|[]]]; try discriminate;
    injection Hin as <- <- <-; state_simpl.
  - eexists. split; [reflexivity|]. split; [now left|].
    do 5 eexists. repeat split; eauto.
  - match goal with
    | H : truthy_str (serverIpAddress c) = true |- _ => rename H into Hc
    end.
    destruct (serverIpAddress c) as [addr|] eqn:Haddr; [|discriminate].
    exists addr. split; [reflexivity|]. split; [right; eauto|].
    do 5 eexists. repeat split; eauto.
Qed.


Lemma rev_app_append (a b acc : string) :
  String.rev_app (a +:+ b) acc = String.rev_app b (String.rev_app a acc).
Proof. revert acc. induction a as [|ch a IH]; intros acc; simpl; auto. Qed.

Lemma rev_app_rev_app (s a b : string) :
  String.rev_app (String.rev_app s a) b = String.rev_app a (s +:+ b).
Proof. revert a b. induction s as [|ch s IH]; intros a b; simpl; auto. Qed.

Lemma append_empty (s : string) : s +:+ "" = s.
Proof.
  induction s as [|ch s IH]; [reflexivity|].
  change (String ch (s +:+ "") = String ch s). now rewrite IH.
Qed.

Lemma rev_rev (s : string) : String.rev (String.rev s) = s.
Proof.
  unfold String.rev. rewrite rev_app_rev_app. simpl. apply append_empty.
Qed.

(** The '-i' URL starts with "https" and ends with "AAC": [trim] has
    nothing to strip. *)
Lemma trim_source_url ip uuid w :
  trim (source_url ip uuid w) = source_url ip uuid w.
Proof.
  unfold trim, trim_end, trim_start, source_url.
  change (strip_ws false
            ("https://" +:+ show_opt ip +:+ "/v1/" +:+ uuid +:+ "/flv?x="
             +:+ show_num w +:+ "&audioEncoding=AAC"))
    with ("https://" +:+ show_opt ip +:+ "/v1/" +:+ uuid +:+ "/flv?x="
          +:+ show_num w +:+ "&audioEncoding=AAC").
  set (url := "https://" +:+ show_opt ip +:+ "/v1/" +:+ uuid +:+ "/flv?x="
              +:+ show_num w +:+ "&audioEncoding=AAC").
  assert (Hrev : exists tail,
             String.rev url = String "C" (String "A" (String "A" tail))).
  { subst url. unfold String.rev. rewrite !rev_app_append.
    eexists. reflexivity. }
  destruct Hrev as [tail Hrev].
  rewrite <- (rev_rev url) at 2. f_equal. rewrite Hrev. reflexivity.
Qed.

(** X5: Whenever a 'start' request spawns the transcoder, an address is
    cached afterwards: it is the fresh one when the lookup answered, and
    otherwise a non-empty address cached before, left as it was; no
    transcoder is spawned without an address.  The binary is the one the
    constructor chose.  Unless the request asks for OPUS or the source
    group has overrides configured, the command line has '-i' followed by
    the URL of that address, with the camera's identifier and the
    requested width (1920 when the request has none). *)
Theorem spawned_stream_has_address (cfg : camera_config) (rid : nat)
    (req : stream_request) (g : rate_gate) (token : string)
    (dns : dns_answer) (c : camera) (pid : nat) (bin : string)
    (argv : list jsval) :
  let c' := handleStreamRequest cfg rid req g token dns c in
  In (Spawn pid bin argv) (appended c c') ->
  exists addr v a,
    serverIpAddress c' = Some addr
    /\ (dns = Resolved addr
        \/ exists err, dns = LookupFails err
                       /\ serverIpAddress c = Some addr
                       /\ nonempty addr = true)
    /\ bin = (match custom_ffmpeg cfg with
              | Some path => path
              | None => if isDocker (env cfg) then "ffmpeg"
                        else bundled_ffmpeg (env cfg)
              end)
    /\ s_video req = Some v /\ s_audio req = Some a
    /\ (a_codec a <> Some "OPUS" ->
        (forall o, cameraOptions cfg = Some o ->
                   configured (sourceOptions o) = false) ->
        exists before after,
          argv = before
                 ++ VStr "-i"
                    :: VStr ("https://" +:+ addr +:+ "/v1/"
                             +:+ uuid (cameraDetails cfg) +:+ "/flv?x="
                             +:+ show_num (match v_width v with
                                           | Some w => w
                                           | None => 1920
                                           end)
                             +:+ "&audioEncoding=AAC")
                    :: after).
Proof.
  intros c' Hspawn.
  destruct (spawn_command cfg rid req g token dns c pid bin argv Hspawn)
    as (addr & Haddr & Hdns & sid & info & v & a & groups & _ & _ & Hv & Ha
        & Hgroups & Hbin & Hargv).
  exists addr, v, a. split; [exact Haddr|]. split; [exact Hdns|].
  split; [exact Hbin|]. split; [exact Hv|]. split; [exact Ha|].
  intros Hcodec Hsource.
  assert (Hopus : is_opus a = false).
  { unfold is_opus. destruct (a_codec a) as [codec|]; [|reflexivity].
    destruct (String.eqb_spec codec "OPUS"); [congruence | reflexivity]. }
  unfold initial_args in Hgroups.
  destruct (video_info info) as [vm|]; [|discriminate].
  destruct (audio_info info) as [am|]; [|discriminate].
  injection Hgroups as <-.
  set (p := stream_parameters (cameraDetails cfg) v a) in *.
  assert (Hurl : source_url (Some addr) (uuid (cameraDetails cfg)) (width p)
                 = "https://" +:+ addr +:+ "/v1/"
                   +:+ uuid (cameraDetails cfg) +:+ "/flv?x="
                   +:+ show_num (match v_width v with
                                 | Some w => w
                                 | None => 1920
                                 end)
                   +:+ "&audioEncoding=AAC") by reflexivity.
  rewrite <- Hurl.
  pose proof (trim_source_url (Some addr) (uuid (cameraDetails cfg)) (width p))
    as Htrim.
  rewrite Hargv. unfold command_line, rewrite_args, codec_rewrite.
  rewrite Hopus.
  assert (Hdocker : sourceArgs
            (docker_rewrite cfg p
               {| sourceArgs :=
                    initial_sourceArgs token (Some addr)
                      (uuid (cameraDetails cfg)) p;
                  videoArgs := initial_videoArgs p (address info) vm;
                  audioArgs := initial_audioArgs p (address info) am |})
          = initial_sourceArgs token (Some addr) (uuid (cameraDetails cfg)) p).
  { unfold docker_rewrite. now destruct (docker_bundled cfg). }
  unfold options_rewrite.
  destruct (cameraOptions cfg) as [o|] eqn:Hopts.
  - specialize (Hsource o eq_refl). unfold apply_camera_options.
    cbn [sourceArgs].
    assert (Hover : forall args,
               apply_overrides Front (sourceOptions o) args = args).
    { intros args. unfold apply_overrides.
      destruct (sourceOptions o); [now rewrite Hsource | reflexivity]. }
    rewrite Hover. destruct (enableHwaccelRpi o).
    + unfold hwaccel_rewrite. cbn [sourceArgs]. rewrite Hdocker.
      unfold initial_sourceArgs, flatten.
      cbn [splice_in List.find flag_is strict_eq String.eqb Ascii.eqb
           Bool.eqb insert_before map concat app trim_val].
      rewrite Htrim. eexists (_ :: _ :: _ :: _ :: _ :: nil). eexists.
      reflexivity.
    + rewrite Hdocker. unfold initial_sourceArgs, flatten.
      cbn [map concat app trim_val]. rewrite Htrim.
      eexists (_ :: _ :: _ :: nil). eexists. reflexivity.
  - rewrite Hdocker. unfold initial_sourceArgs, flatten.
    cbn [map concat app trim_val]. rewrite Htrim.
    eexists (_ :: _ :: _ :: nil). eexists. reflexivity.
Qed.

Lemma spawned_stream_has_address_witness :
  exists argv,
    In (Spawn 0 "ffmpeg" argv) (appended sample_prepared sample_streaming)
    /\ serverIpAddress sample_streaming = Some "52.1.2.3"
    /\ exists before after,
         argv = before
                ++ VStr "-i"
                   :: VStr "https://52.1.2.3/v1/cam-uuid/flv?x=1280&audioEncoding=AAC"
                   :: after.
Proof.
  assert (Hspawn : exists argv,
             In (Spawn 0 "ffmpeg" argv)
               (appended sample_prepared sample_streaming)).
  { eexists. right. left. reflexivity. }
  destruct Hspawn as [argv Hspawn]. exists argv.
  split; [exact Hspawn|]. split; [reflexivity|].
  destruct (spawned_stream_has_address sample_cfg 1 sample_start open_gate
              "token" (Resolved "52.1.2.3") sample_prepared 0 "ffmpeg" argv
              Hspawn) as (addr & v & a & Haddr & _ & _ & Hv & Ha & Hargv).
  injection Haddr as <-. injection Hv as <-. injection Ha as <-.
  apply Hargv; [discriminate | intros o Ho; discriminate Ho].
Defined.

(** X6: Every fetch of a snapshot request goes to the address that the cache
    holds after the lookup (the fresh one when the lookup answered, the
    old one when it failed, "undefined" when there is none) with the
    camera's identifier and the requested width in the path, and carries
    the access token; the cache is overwritten only by an answer. *)
Theorem snapshot_fetch_target (cfg : camera_config) (rid : nat)
    (g : rate_gate) (w : Z) (token : string) (alarm : alarm_answer)
    (dns : dns_answer) (img : fetch_answer) (c : camera) (url auth : string) :
  let c' := handleSnapshotRequest cfg rid g w token alarm dns img c in
  In (Fetch url auth) (appended c c') ->
  serverIpAddress c' = match dns with
                       | Resolved a => Some a
                       | LookupFails _ => serverIpAddress c
                       end
  /\ url = "https://" +:+ show_opt (serverIpAddress c') +:+ "/v1/"
           +:+ uuid (cameraDetails cfg) +:+ "/mjpg?x=" +:+ show_num w
           +:+ "&fr=1"
  /\ auth = "Bearer " +:+ token.
Proof.
  intros c'. subst c'.
  unfold handleSnapshotRequest, snapshot_fetch, snapshot_url, lookup_media.
  repeat match goal with
         | |- context [match ?x with _ => _ end] => destruct x eqn:?
         end;
    intros Hin;
    first [ rewrite appended_same in Hin by reflexivity
          | erewrite appended_app in Hin by trace_eq ];
    cbn [In app] in Hin;
    repeat match type of Hin with
           | _ \/ _ => destruct Hin as [Hin|Hin]
           end;
    try discriminate; try contradiction;
    injection Hin as <- <-; state_simpl; repeat split.
Qed.

Lemma snapshot_fetch_target_witness :
  In (Fetch "https://52.1.2.3/v1/cam-uuid/mjpg?x=640&fr=1" "Bearer token")
    (appended construct
       (handleSnapshotRequest sample_cfg 0 open_gate 640 "token"
          (AlarmState "AWAY") (Resolved "52.1.2.3") (Image []) construct))
  /\ serverIpAddress
       (handleSnapshotRequest sample_cfg 0 open_gate 640 "token"
          (AlarmState "AWAY") (Resolved "52.1.2.3") (Image []) construct)
     = Some "52.1.2.3".
Proof.
  assert (Hin : In (Fetch "https://52.1.2.3/v1/cam-uuid/mjpg?x=640&fr=1"
                      "Bearer token")
    (appended construct
       (handleSnapshotRequest sample_cfg 0 open_gate 640 "token"
          (AlarmState "AWAY") (Resolved "52.1.2.3") (Image []) construct))).
  { right. right. left. reflexivity. }
  split; [exact Hin|].
  exact (proj1 (snapshot_fetch_target sample_cfg 0 open_gate 640 "token"
                  (AlarmState "AWAY") (Resolved "52.1.2.3") (Image [])
                  construct _ _ Hin)).
Defined.

(** ** Dispatch of subscription events *)

Lemma concerns_spec cfg d :
  concerns cfg d = true
  <-> sensorSerial d = Some (id cfg) \/ internal d = Some (Some (id cfg)).
Proof.
  unfold concerns. rewrite orb_true_iff. split.
  - intros [H|H].
    + left. destruct (sensorSerial d); [|discriminate].
      apply String.eqb_eq in H. now subst.
    + right. destruct (internal d) as [[m|]|]; try discriminate.
      apply String.eqb_eq in H. now subst.
  - intros [H|H]; rewrite H; [left|right]; apply String.eqb_refl.
Qed.

(** X7: An event whose sensor serial is not this camera's identifier and
    whose internal main camera, if any, is not either, does nothing to the
    camera state of the accessory: a motion, doorbell or unknown event is
    ignored altogether, and for every event the motion flag stays as it
    is and neither a motion update nor a doorbell press goes out. *)
Theorem unrelated_event_ignored (cfg : camera_config) (ev : event_type)
    (d : event_data) (c : camera) :
  sensorSerial d <> Some (id cfg) ->
  internal d <> Some (Some (id cfg)) ->
  let c' := on_event cfg ev (Some d) c in
  c' = on_socket_event cfg ev c
  /\ motionIsTriggered c' = motionIsTriggered c
  /\ (forall b, ~ In (MotionDetected b) (appended c c'))
  /\ ~ In DoorbellPress (appended c c')
  /\ (ev <> CONNECTED -> ev <> CONNECTION_LOST -> c' = c).
Proof.
  intros Hserial Hmain c'. subst c'.
  assert (Hno : concerns cfg d = false).
  { destruct (concerns cfg d) eqn:E; [|reflexivity].
    apply concerns_spec in E. tauto. }
  assert (Heq : on_event cfg ev (Some d) c = on_socket_event cfg ev c).
  { unfold on_event. destruct (accessory (on_socket_event cfg ev c));
      [now rewrite Hno | reflexivity]. }
  rewrite Heq. split; [reflexivity|].
  destruct ev; simpl;
    (split; [reflexivity|]);
    first [ rewrite appended_same by reflexivity
          | erewrite appended_app by trace_eq ];
    repeat split; try tauto; try congruence;
    simpl; intuition discriminate.
Qed.

Lemma unrelated_event_ignored_witness :
  on_event sample_cfg CAMERA_MOTION
    (Some {| sensorSerial := Some "other-cam"; internal := None |})
    (setAccessory true construct)
  = setAccessory true construct.
Proof.
  refine (proj2 (proj2 (proj2 (proj2
    (unrelated_event_ignored sample_cfg CAMERA_MOTION
       {| sensorSerial := Some "other-cam"; internal := None |}
       (setAccessory true construct) _ _)))) _ _); discriminate.
Defined.

(** X8: A motion event for this camera, by its sensor serial or by its
    internal main camera, reports motion, sets the motion flag and arms
    the five-second timer.  While the flag is set a snapshot request that
    passes the rate-limit check goes straight to the lookup and the
    fetch.  The timer reports the end of motion and clears the flag, also
    when a second motion event has arrived in the meantime. *)
Theorem motion_window (cfg : camera_config) (d : event_data)
    (has_doorbell : bool) (c : camera) :
  accessory c = Some has_doorbell ->
  sensorSerial d = Some (id cfg) \/ internal d = Some (Some (id cfg)) ->
  let c1 := on_event cfg CAMERA_MOTION (Some d) c in
  appended c c1 = [MotionDetected true; SetTimeout 5000 ClearMotion]
  /\ motionIsTriggered c1 = true
  /\ (forall rid g w token alarm dns img,
        blocked g = false ->
        handleSnapshotRequest cfg rid g w token alarm dns img c1
        = snapshot_fetch cfg rid w token dns img c1)
  /\ appended c1 (clear_motion c1) = [MotionDetected false]
  /\ motionIsTriggered (clear_motion c1) = false
  /\ motionIsTriggered
       (clear_motion (on_event cfg CAMERA_MOTION (Some d) c1)) = false.
Proof.
  intros Hacc Hrel c1.
  apply concerns_spec in Hrel.
  assert (Hc1 : c1 = emit (SetTimeout 5000 ClearMotion)
                       (set_motion true (emit (MotionDetected true) c))).
  { subst c1. unfold on_event. simpl. now rewrite Hacc, Hrel. }
  rewrite Hc1. split; [appended_is|]. split; [reflexivity|].
  split.
  { intros rid g w token alarm dns img Hgate.
    unfold handleSnapshotRequest. now rewrite Hgate. }
  split; [unfold clear_motion; appended_is|]. split; reflexivity.
Qed.

Lemma motion_window_witness :
  accessory (setAccessory false construct) = Some false
  /\ motionIsTriggered
       (on_event sample_cfg CAMERA_MOTION
          (Some {| sensorSerial := Some "base-station";
                   internal := Some (Some "cam-uuid") |})
          (setAccessory false construct))
     = true.
Proof.
  split; [reflexivity|].
  refine (proj1 (proj2
    (motion_window sample_cfg
       {| sensorSerial := Some "base-station";
          internal := Some (Some "cam-uuid") |}
       false (setAccessory false construct) eq_refl _))).
  right. reflexivity.
Defined.

(** X9: A doorbell event for this camera triggers the programmable switch
    exactly once and changes nothing else, when the accessory has a
    Doorbell service; without one the handler throws. *)
Theorem doorbell_rings_once (cfg : camera_config) (d : event_data)
    (has_doorbell : bool) (c : camera) :
  accessory c = Some has_doorbell ->
  sensorSerial d = Some (id cfg) \/ internal d = Some (Some (id cfg)) ->
  on_event cfg DOORBELL (Some d) c
  = emit (if has_doorbell then DoorbellPress else Uncaught) c.
Proof.
  intros Hacc Hrel. apply concerns_spec in Hrel.
  unfold on_event. simpl. rewrite Hacc, Hrel. now destruct has_doorbell.
Qed.

Lemma doorbell_rings_once_witness :
  accessory (setAccessory true construct) = Some true
  /\ trace
       (on_event sample_cfg DOORBELL
          (Some {| sensorSerial := Some "cam-uuid"; internal := None |})
          (setAccessory true construct))
     = [DoorbellPress].
Proof.
  split; [reflexivity|].
  rewrite (doorbell_rings_once sample_cfg
             {| sensorSerial := Some "cam-uuid"; internal := None |}
             true (setAccessory true construct) eq_refl);
    [reflexivity | left; reflexivity].
Defined.

(** ** What a step can do *)

Ltac step_cases :=
  unfold step, identify, setAccessory, getState, handleSnapshotRequest,
    snapshot_fetch, prepareStream, handleStreamRequest, start_stream,
    stop_stream, spawn_transcoder, lookup_media, on_stderr, on_error,
    on_close, startListening, on_event, on_socket_event, on_camera_event,
    clear_motion, mark_started;
  repeat match goal with
         | |- context [match ?x with _ => _ end] => destruct x eqn:?
         end.

Ltac appended_in H :=
  first [ rewrite appended_same in H by reflexivity
        | erewrite appended_app in H by trace_eq ];
  cbn [In app] in H;
  repeat match type of H with
         | _ \/ _ => destruct H as [H|H]
         end;
  try discriminate; try contradiction.

(** Every method and every handler only adds to what the accessory has
    done so far. *)
Lemma trace_grows (cfg : camera_config) (ins : list input) (c : camera) :
  exists l, trace (run cfg c ins) = trace c ++ l.
Proof.
  revert c. induction ins as [|i ins IH]; intros c.
  - exists []. now rewrite app_nil_r.
  - simpl. destruct (IH (step cfg c i)) as [l ->].
    assert (Hstep : exists l', trace (step cfg c i) = trace c ++ l').
    { destruct i; step_cases;
        first [ exists []; rewrite app_nil_r; reflexivity
              | eexists; trace_eq ]. }
    destruct Hstep as [l' ->]. exists (l' ++ l). now rewrite app_assoc.
Qed.

(** X10: A timer that restarts the subscription is set in two places only:
    by a RateLimitError of [subscribeToEvents], with the doubled delay,
    and by a CONNECTION_LOST event, with the base interval.  A deliberate
    DISCONNECT, a successful subscription and any other error set none. *)
Theorem retry_origin (cfg : camera_config) (c : camera) (i : input) (d : Z) :
  In (SetTimeout d Relisten) (appended c (step cfg c i)) ->
  (i = InListen RateLimitError
   /\ d = 2 ^ nSocketConnectFailures c * SOCKET_RETRY_INTERVAL (env cfg))
  \/ (exists data, i = InEvent CONNECTION_LOST data
                   /\ d = SOCKET_RETRY_INTERVAL (env cfg)).
Proof.
  destruct i; step_cases; intros Hin; appended_in Hin;
    injection Hin as <-; eauto.
Qed.

Lemma retry_origin_witness :
  In (SetTimeout 1000 Relisten)
    (appended construct (step sample_cfg construct (InEvent CONNECTION_LOST None)))
  /\ ((InEvent CONNECTION_LOST None = InListen RateLimitError
       /\ 1000 = 2 ^ nSocketConnectFailures construct
                 * SOCKET_RETRY_INTERVAL (env sample_cfg))
      \/ exists data, InEvent CONNECTION_LOST None = InEvent CONNECTION_LOST data
                      /\ 1000 = SOCKET_RETRY_INTERVAL (env sample_cfg)).
Proof.
  assert (Hin : In (SetTimeout 1000 Relisten)
    (appended construct
       (step sample_cfg construct (InEvent CONNECTION_LOST None)))).
  { left. reflexivity. }
  split; [exact Hin|].
  exact (retry_origin sample_cfg construct (InEvent CONNECTION_LOST None) 1000
           Hin).
Defined.

(** X11: The class sends the kill signal in one place only: a 'stop' request,
    to the process recorded as the ongoing session of the identifier of
    that request.  No error, no exit and no other request kills a
    process. *)
Theorem kill_origin (cfg : camera_config) (c : camera) (i : input) (pid : nat) :
  In (Kill pid) (appended c (step cfg c i)) ->
  exists rid req g token dns sid,
    i = InStream rid req g token dns
    /\ s_sessionID req = Some sid
    /\ s_type req = "stop"
    /\ ongoingSessions c !! sid = Some pid.
Proof.
  destruct i; step_cases; intros Hin; appended_in Hin.
  injection Hin as <-.
  match goal with
  | H : String.eqb (s_type _) "stop" = true |- _ => apply String.eqb_eq in H
  end.
  eauto 12.
Qed.

Lemma kill_origin_witness :
  In (Kill 0)
    (appended sample_streaming
       (step sample_cfg sample_streaming
          (InStream 5 sample_stop open_gate "token" (Resolved "52.1.2.3"))))
  /\ ongoingSessions sample_streaming !! "s1" = Some 0%nat.
Proof.
  assert (Hin : In (Kill 0)
    (appended sample_streaming
       (step sample_cfg sample_streaming
          (InStream 5 sample_stop open_gate "token" (Resolved "52.1.2.3"))))).
  { left. reflexivity. }
  split; [exact Hin|].
  destruct (kill_origin sample_cfg sample_streaming _ 0%nat Hin)
    as (rid & req & g & token & dns & sid & Hi & Hsid & _ & Hong).
  injection Hi as <- <- <- <- <-. injection Hsid as <-. exact Hong.
Defined.

(** X12: A transcoder is spawned in one place only: a 'start' request that is
    not rate limited, for an identifier with a pending session, carrying
    both a video and an audio part; the new process gets the next free
    index. *)
Theorem spawn_origin (cfg : camera_config) (c : camera) (i : input)
    (pid : nat) (bin : string) (argv : list jsval) :
  In (Spawn pid bin argv) (appended c (step cfg c i)) ->
  exists rid req g token dns sid,
    i = InStream rid req g token dns
    /\ s_sessionID req = Some sid
    /\ s_type req = "start"
    /\ blocked g = false
    /\ is_Some (pendingSessions c !! sid)
    /\ is_Some (s_video req) /\ is_Some (s_audio req)
    /\ pid = length (procs c).
Proof.
  destruct i; step_cases; intros Hin; appended_in Hin;
    injection Hin as <- <- <-;
    match goal with
    | H : String.eqb (s_type _) "start" = true |- _ => apply String.eqb_eq in H
    end;
    do 6 eexists; repeat split; eauto.
Qed.

Lemma spawn_origin_witness :
  (exists argv,
      In (Spawn 0 "ffmpeg" argv)
        (appended sample_prepared
           (step sample_cfg sample_prepared
              (InStream 1 sample_start open_gate "token"
                 (Resolved "52.1.2.3")))))
  /\ is_Some (pendingSessions sample_prepared !! "s1").
Proof.
  assert (Hin : exists argv,
      In (Spawn 0 "ffmpeg" argv)
        (appended sample_prepared
           (step sample_cfg sample_prepared
              (InStream 1 sample_start open_gate "token"
                 (Resolved "52.1.2.3"))))).
  { eexists. right. left. reflexivity. }
  split; [exact Hin|]. destruct Hin as [argv Hin].
  destruct (spawn_origin sample_cfg sample_prepared _ 0%nat "ffmpeg" argv Hin)
    as (rid & req & g & token & dns & sid & Hi & Hsid & _ & _ & Hpending & _).
  injection Hi as <- <- <- <- <-. injection Hsid as <-. exact Hpending.
Defined.

(** ** Spawned processes *)

Lemma step_keeps_proc cfg c i pid p :
  procs c !! pid = Some p ->
  exists p',
    procs (step cfg c i) !! pid = Some p'
    /\ proc_session p' = proc_session p
    /\ proc_callback p' = proc_callback p
    /\ (proc_started p = true -> proc_started p' = true).
Proof.
  intros Hp.
  assert (Hlt : (pid < length (procs c))%nat) by (eapply lookup_lt_Some; eauto).
  destruct i; step_cases; state_simpl;
    try (exists p;
         refine (conj _ (conj eq_refl (conj eq_refl (fun H => H))));
         solve [ assumption | rewrite lookup_app_l; assumption ]).
  match goal with
  | |- context [alter _ ?q (procs c)] => destruct (decide (q = pid)) as [->|Hne]
  end.
  - rewrite list_lookup_alter_eq, Hp. eexists.
    refine (conj eq_refl (conj eq_refl (conj eq_refl (fun _ => eq_refl)))).
  - rewrite list_lookup_alter_ne by assumption. exists p.
    exact (conj Hp (conj eq_refl (conj eq_refl (fun H => H)))).
Qed.

(** X13: The handlers of a process keep their session and their callback for
    good, and [started], once set by the first stderr output, is never
    reset, whatever requests and events follow. *)
Theorem readiness_latch (cfg : camera_config) (ins : list input) (c : camera)
    (pid : nat) (p : proc) :
  procs c !! pid = Some p ->
  exists p',
    procs (run cfg c ins) !! pid = Some p'
    /\ proc_session p' = proc_session p
    /\ proc_callback p' = proc_callback p
    /\ (proc_started p = true -> proc_started p' = true).
Proof.
  revert c p. induction ins as [|i ins IH]; intros c p Hp.
  - exists p. now repeat split.
  - simpl. destruct (step_keeps_proc cfg c i pid p Hp)
      as (p1 & Hp1 & Hs1 & Hc1 & Hst1).
    destruct (IH _ _ Hp1) as (p2 & Hp2 & Hs2 & Hc2 & Hst2).
    exists p2. split; [exact Hp2|]. split; [congruence|].
    split; [congruence | auto].
Qed.

Lemma readiness_latch_witness :
  procs (on_stderr 0 sample_streaming) !! 0%nat
  = Some {| proc_session := "s1"; proc_callback := 1; proc_started := true |}
  /\ exists p',
       procs (run sample_cfg (on_stderr 0 sample_streaming)
                [InClose 0 (Some 1);
                 InStream 5 sample_stop open_gate "token" (Resolved "52.1.2.3")])
         !! 0%nat = Some p'
       /\ proc_started p' = true.
Proof.
  split; [reflexivity|].
  destruct (readiness_latch sample_cfg
              [InClose 0 (Some 1);
               InStream 5 sample_stop open_gate "token" (Resolved "52.1.2.3")]
              (on_stderr 0 sample_streaming) 0 _ eq_refl)
    as (p' & Hp' & _ & _ & Hst).
  exists p'. split; [exact Hp' | exact (Hst eq_refl)].
Defined.

(** X14: Output, errors and exits of one process reach the callback of the
    'start' request that spawned it and no other: the callback of any
    other request is invoked as often after the event as before. *)
Theorem process_events_are_private (cfg : camera_config) (c : camera)
    (pid : nat) (p : proc) (rid : nat) :
  procs c !! pid = Some p ->
  proc_callback p <> rid ->
  callbacks rid (on_stderr pid c) = callbacks rid c
  /\ (forall err, callbacks rid (on_error pid err c) = callbacks rid c)
  /\ (forall code, callbacks rid (on_close pid code c) = callbacks rid c).
Proof.
  intros Hp Hne.
  assert (Hno : forall r, is_callback rid (Callback (proc_callback p) r) = false).
  { intros r. simpl. now apply Nat.eqb_neq. }
  split; [|split].
  - unfold on_stderr. rewrite Hp. destruct (proc_started p); [reflexivity|].
    erewrite callbacks_app by trace_eq. cbn [List.filter]. rewrite Hno.
    change (callbacks rid (mark_started pid c)) with (callbacks rid c).
    simpl. lia.
  - intros err. unfold on_error. rewrite Hp.
    erewrite callbacks_app by trace_eq. cbn [List.filter]. rewrite Hno.
    simpl. lia.
  - intros code. unfold on_close. rewrite Hp.
    destruct code as [n|]; [|reflexivity].
    destruct (normal_exit (Some n)); [reflexivity|].
    destruct (proc_started p);
      erewrite callbacks_app by trace_eq; cbn [List.filter];
      rewrite ?Hno; simpl; lia.
Qed.

Lemma process_events_are_private_witness :
  procs sample_streaming !! 0%nat
  = Some {| proc_session := "s1"; proc_callback := 1; proc_started := false |}
  /\ callbacks 0 (on_error 0 "ENOENT" sample_streaming)
     = callbacks 0 sample_streaming.
Proof.
  split; [reflexivity|].
  refine (proj1 (proj2
    (process_events_are_private sample_cfg sample_streaming 0 _ 0 eq_refl _))
    "ENOENT").
  discriminate.
Defined.

(** ** Override merge: order, effect and removal *)

Lemma head_set1 key v a : flag_is key a = true -> head (set1 v a) = head a.
Proof. destruct a; simpl; [discriminate | reflexivity]. Qed.

Lemma flags_set_first key v args :
  flags (set_first key v args) = flags args.
Proof.
  unfold flags, set_first. induction args as [|x rest IH]; [reflexivity|].
  simpl. destruct (flag_is key x) eqn:E; simpl.
  - now rewrite (head_set1 key v x E).
  - now rewrite IH.
Qed.

Lemma flag_is_head key a b : head a = head b -> flag_is key a = flag_is key b.
Proof. destruct a, b; simpl; congruence. Qed.

Lemma existsb_flags key args args' :
  flags args = flags args' ->
  existsb (flag_is key) args = existsb (flag_is key) args'.
Proof.
  unfold flags. revert args'.
  induction args as [|x rest IH]; intros [|y rest']; simpl; try discriminate;
    [reflexivity|].
  intros [= Hh Ht]. now rewrite (flag_is_head key x y Hh), (IH rest' Ht).
Qed.

Lemma find_existsb {A} (p : A -> bool) l :
  existsb p l = match List.find p l with Some _ => true | None => false end.
Proof.
  induction l as [|x l IH]; simpl; [reflexivity|]. now destruct (p x).
Qed.

Lemma new_keys_flags opts args args' :
  flags args = flags args' -> new_keys opts args = new_keys opts args'.
Proof.
  intros H. unfold new_keys. apply List.filter_ext. intros k.
  now rewrite (existsb_flags k args args' H).
Qed.

Lemma flag_is_fresh_other key key' v :
  key <> key' -> flag_is key [VStr key'; v] = false.
Proof. intros H. simpl. apply String.eqb_neq. congruence. Qed.

Lemma new_keys_added opts args key v extended :
  ~ In key (map fst opts) ->
  (forall k, existsb (flag_is k) extended
             = existsb (flag_is k) args || flag_is k [VStr key; v]) ->
  new_keys opts extended = new_keys opts args.
Proof.
  intros Hnin Hext. unfold new_keys.
  induction (map fst opts) as [|k ks IH]; [reflexivity|].
  simpl in Hnin. simpl. rewrite Hext.
  rewrite (flag_is_fresh_other k key v) by tauto.
  rewrite orb_false_r, IH by tauto. reflexivity.
Qed.

Lemma new_keys_cons_present key v opts args :
  existsb (flag_is key) args = true ->
  new_keys ((key, v) :: opts) args = new_keys opts args.
Proof. intros H. unfold new_keys. simpl. now rewrite H. Qed.

Lemma new_keys_cons_absent key v opts args :
  existsb (flag_is key) args = false ->
  new_keys ((key, v) :: opts) args = key :: new_keys opts args.
Proof. intros H. unfold new_keys. simpl. now rewrite H. Qed.

Lemma merge_never_shortens pos opts : forall args,
  no_removal opts -> (length args <= length (merge pos opts args))%nat.
Proof.
  induction opts as [|[k v] opts IH]; intros args Hrm; [simpl; lia|].
  inversion Hrm as [|? ? Hv Hrest]; subst. simpl in Hv.
  rewrite merge_cons. etransitivity; [|apply IH; exact Hrest].
  unfold merge_step. destruct (List.find (flag_is k) args).
  - rewrite Hv. unfold set_first. rewrite alter_first_length. lia.
  - destruct pos; [simpl | rewrite length_app; simpl]; lia.
Qed.

(** X15: Without removal markers a merge keeps every argument of the group in
    its place and only adds the flags that the group did not carry: for
    video and audio they follow at the end in the order of the map, for
    source they come in front, in reverse order. *)
Theorem merge_keeps_order (pos : position) (opts : options)
    (args : arg_group) :
  distinct_keys opts -> no_removal opts ->
  flags (merge pos opts args)
  = match pos with
    | Back => flags args ++ map (fun k => Some (VStr k)) (new_keys opts args)
    | Front =>
        rev (map (fun k => Some (VStr k)) (new_keys opts args)) ++ flags args
    end.
Proof.
  revert args. induction opts as [|[k v] opts IH]; intros args Hd Hrm.
  - destruct pos; simpl; [reflexivity | now rewrite app_nil_r].
  - unfold distinct_keys in Hd. simpl in Hd.
    apply NoDup_cons_iff in Hd as [Hk Hd].
    inversion Hrm as [|? ? Hv Hrest]; subst. simpl in Hv.
    rewrite merge_cons, (IH _ Hd Hrest). unfold merge_step.
    pose proof (find_existsb (flag_is k) args) as Hex.
    destruct (List.find (flag_is k) args) as [a|] eqn:Hfind; rewrite ?Hv.
    + rewrite (new_keys_cons_present k v opts args Hex).
      rewrite (new_keys_flags opts _ args (flags_set_first k v args)).
      now rewrite flags_set_first.
    + rewrite (new_keys_cons_absent k v opts args Hex). destruct pos.
      * rewrite (new_keys_added opts args k v ([VStr k; v] :: args) Hk)
          by (intros k'; simpl; apply orb_comm).
        unfold flags. cbn [map head rev]. now rewrite <- app_assoc.
      * rewrite (new_keys_added opts args k v (args ++ [[VStr k; v]]) Hk)
          by (intros k'; rewrite existsb_app; simpl;
              now rewrite orb_false_r).
        unfold flags. rewrite map_app. cbn [map head].
        now rewrite <- app_assoc.
Qed.

Lemma merge_keeps_order_witness :
  flags (merge Front [("-loglevel", VStr "error"); ("-re", VStr "1");
                      ("-rtsp_transport", VStr "tcp")]
           [[VStr "-re"]; [VStr "-i"; VStr "url"]])
  = [Some (VStr "-rtsp_transport"); Some (VStr "-loglevel");
     Some (VStr "-re"); Some (VStr "-i")].
Proof.
  apply (merge_keeps_order Front
           [("-loglevel", VStr "error"); ("-re", VStr "1");
            ("-rtsp_transport", VStr "tcp")]
           [[VStr "-re"]; [VStr "-i"; VStr "url"]]).
  - unfold distinct_keys. simpl.
    repeat constructor; simpl; intuition discriminate.
  - unfold no_removal. repeat constructor.
Defined.

(** X16: After a merge without removal markers every override is in effect:
    the first argument that carries the flag has the value of the map as
    its second element. *)
Theorem override_takes_effect (pos : position) (opts : options)
    (args : arg_group) (key : string) (v : jsval) :
  distinct_keys opts -> no_removal opts -> In (key, v) opts ->
  exists rest,
    List.find (flag_is key) (merge pos opts args)
    = Some (VStr key :: v :: rest).
Proof.
  intros Hd Hrm Hin.
  destruct (merge_settles pos opts args key v Hd Hrm Hin) as (a & Hfind & Ha).
  destruct (find_some _ _ Hfind) as [_ Hflag].
  apply flag_is_inv in Hflag as [rest ->].
  destruct rest as [|x rest]; simpl in Ha; [discriminate|].
  injection Ha as ->. exists rest. exact Hfind.
Qed.

Lemma override_takes_effect_witness :
  exists rest,
    List.find (flag_is "-f")
      (merge Back [("-f", VStr "mpegts")]
         [[VStr "-f"; VStr "rawvideo"]; [VStr "-f"; VStr "rtp"]])
    = Some (VStr "-f" :: VStr "mpegts" :: rest).
Proof.
  apply (override_takes_effect Back [("-f", VStr "mpegts")]
           [[VStr "-f"; VStr "rawvideo"]; [VStr "-f"; VStr "rtp"]]
           "-f" (VStr "mpegts")).
  - unfold distinct_keys. simpl. repeat constructor. simpl. tauto.
  - unfold no_removal. repeat constructor.
  - left. reflexivity.
Defined.

Lemma existsb_drop_same key args :
  existsb (flag_is key) (drop_flag key args) = false.
Proof.
  unfold drop_flag. induction args as [|x rest IH]; [reflexivity|].
  simpl. destruct (flag_is key x) eqn:E; simpl; [exact IH|].
  now rewrite E, IH.
Qed.

Lemma existsb_drop_other key key' args :
  key <> key' ->
  existsb (flag_is key) (drop_flag key' args) = existsb (flag_is key) args.
Proof.
  intros Hne. unfold drop_flag. induction args as [|x rest IH]; [reflexivity|].
  simpl. destruct (flag_is key' x) eqn:E; simpl.
  - now rewrite (flag_is_other key key' x Hne E), IH.
  - now rewrite IH.
Qed.

Lemma merge_step_other_flag pos key key' v' args :
  key <> key' ->
  existsb (flag_is key) (merge_step pos args (key', v'))
  = existsb (flag_is key) args.
Proof.
  intros Hne. unfold merge_step.
  destruct (List.find (flag_is key') args).
  - destruct (is_false v').
    + now apply existsb_drop_other.
    + apply existsb_flags, flags_set_first.
  - destruct pos.
    + simpl. now rewrite (proj2 (String.eqb_neq key' key)) by congruence.
    + rewrite existsb_app. simpl.
      rewrite (proj2 (String.eqb_neq key' key)) by congruence.
      now rewrite !orb_false_r.
Qed.

Lemma merge_other_flags pos key opts : forall args,
  ~ In key (map fst opts) ->
  existsb (flag_is key) (merge pos opts args) = existsb (flag_is key) args.
Proof.
  induction opts as [|[k' v'] opts IH]; intros args Hnin; [reflexivity|].
  simpl in Hnin. rewrite merge_cons, IH by tauto.
  apply merge_step_other_flag. intros ->. tauto.
Qed.

(** X17: A removal marker for a flag that the group carries takes out every
    argument with that flag, duplicates included, whatever else the map
    overrides or removes. *)
Theorem removal_takes_effect (pos : position) (opts : options)
    (args : arg_group) (key : string) :
  distinct_keys opts ->
  In (key, VBool false) opts ->
  existsb (flag_is key) args = true ->
  Forall (fun a => flag_is key a = false) (merge pos opts args).
Proof.
  intros Hd Hin Hpresent.
  assert (Hgone : existsb (flag_is key) (merge pos opts args) = false).
  { revert args Hpresent.
    induction opts as [|[k' v'] opts IH]; intros args Hpresent;
      [destruct Hin|].
    unfold distinct_keys in Hd. simpl in Hd.
    apply NoDup_cons_iff in Hd as [Hk' Hd]. rewrite merge_cons.
    destruct Hin as [[= -> ->]|Hin].
    - rewrite merge_other_flags by assumption. unfold merge_step.
      rewrite find_existsb in Hpresent.
      destruct (List.find (flag_is key) args); [|discriminate].
      apply existsb_drop_same.
    - apply IH; try assumption.
      rewrite merge_step_other_flag; [assumption|].
      intros ->. apply Hk'. now apply (in_map fst _ (k', VBool false)). }
  apply List.Forall_forall. intros a Ha.
  destruct (flag_is key a) eqn:E; [|reflexivity].
  assert (existsb (flag_is key) (merge pos opts args) = true)
    by (apply existsb_exists; exists a; split; assumption).
  congruence.
Qed.

Lemma removal_takes_effect_witness :
  Forall (fun a => flag_is "-f" a = false)
    (merge Back [("-preset", VStr "fast"); ("-f", VBool false)]
       [[VStr "-f"; VStr "rawvideo"]; [VStr "-preset"; VStr "superfast"];
        [VStr "-f"; VStr "rtp"]]).
Proof.
  apply (removal_takes_effect Back
           [("-preset", VStr "fast"); ("-f", VBool false)]
           [[VStr "-f"; VStr "rawvideo"]; [VStr "-preset"; VStr "superfast"];
            [VStr "-f"; VStr "rtp"]] "-f").
  - unfold distinct_keys. simpl. repeat constructor; simpl; intuition discriminate.
  - right. left. reflexivity.
  - reflexivity.
Defined.

(** ** Legacy override strings *)

Lemma obj_set_keys key v o x :
  In x (map fst (obj_set key v o)) -> x = key \/ In x (map fst o).
Proof.
  induction o as [|[k' v'] o IH]; simpl.
  - intros [<-|[]]. now left.
  - destruct (String.eqb k' key); simpl; intros [H|H]; auto.
    destruct (IH H); auto.
Qed.

Lemma obj_set_distinct key v o :
  distinct_keys o -> distinct_keys (obj_set key v o).
Proof.
  unfold distinct_keys. induction o as [|[k' v'] o IH]; simpl; intros Hd.
  - repeat constructor. simpl. tauto.
  - apply NoDup_cons_iff in Hd as [Hk' Hd].
    destruct (String.eqb k' key) eqn:E; simpl.
    + now constructor.
    + constructor; [|auto]. intros Hin.
      destruct (obj_set_keys _ _ _ _ Hin) as [->|Hold]; [|contradiction].
      rewrite String.eqb_refl in E. discriminate.
Qed.

Lemma obj_set_no_removal key v o :
  is_false v = false -> no_removal o -> no_removal (obj_set key v o).
Proof.
  unfold no_removal. intros Hv. induction o as [|[k' v'] o IH]; simpl; intros Ho.
  - repeat constructor. exact Hv.
  - inversion Ho as [|? ? Hv' Hrest]; subst.
    destruct (String.eqb k' key); constructor; auto.
Qed.

Lemma fromEntries_well_formed entries :
  distinct_keys (fromEntries entries) /\ no_removal (fromEntries entries).
Proof.
  unfold fromEntries.
  assert (H : forall o, distinct_keys o /\ no_removal o ->
    let r := fold_left
      (fun o e =>
         match e with
         | [] => obj_set "undefined" VUndef o
         | [k] => obj_set k VUndef o
         | k :: v :: _ => obj_set k (VStr v) o
         end) entries o in
    distinct_keys r /\ no_removal r).
  { induction entries as [|e entries IH]; intros o Ho; [exact Ho|].
    simpl. apply IH. destruct Ho as [Hd Hr].
    destruct e as [|k [|v rest]];
      (split; [now apply obj_set_distinct | now apply obj_set_no_removal]). }
  apply H. split; [constructor | constructor].
Qed.

(** X18: An override given in the legacy string form is parsed into a map with
    pairwise distinct flags none of whose values is the removal marker: a
    legacy string can add and replace arguments but never remove one, and
    merging it a second time changes nothing. *)
Theorem legacy_overrides_never_remove (s : string) (pos : position)
    (args : arg_group) :
  distinct_keys (normalize (Legacy s))
  /\ no_removal (normalize (Legacy s))
  /\ (length args <= length (merge pos (normalize (Legacy s)) args))%nat
  /\ merge pos (normalize (Legacy s)) (merge pos (normalize (Legacy s)) args)
     = merge pos (normalize (Legacy s)) args.
Proof.
  destruct (fromEntries_well_formed (legacy_entries s)) as [Hd Hr].
  split; [exact Hd|]. split; [exact Hr|]. split.
  - now apply merge_never_shortens.
  - apply merge_fixed; [exact Hr|].
    intros key v Hin. now apply merge_settles.
Qed.

(** ** Stream parameters *)

(** X19: The frame rate and the video bit rate of a stream never exceed what
    the camera is set to: a request below the camera's value is taken, a
    request at or above it, or none, leaves the camera's value.  Width,
    audio bit rate, sample rate and packet size are the requested ones,
    with 1920, 96, 16 and 1316 where the request has none. *)
Theorem stream_parameters_bounds (d : camera_details) (v : video_request)
    (a : audio_request) :
  let p := stream_parameters d v a in
  fps p <= admin_fps d
  /\ videoBitrate p <= admin_bitRate d
  /\ fps p = match v_fps v with
             | Some f => Z.min f (admin_fps d)
             | None => admin_fps d
             end
  /\ videoBitrate p = match v_max_bit_rate v with
                      | Some b => Z.min b (admin_bitRate d)
                      | None => admin_bitRate d
                      end
  /\ width p = match v_width v with Some w => w | None => 1920 end
  /\ audioBitrate p = match a_max_bit_rate a with Some b => b | None => 96 end
  /\ audioSamplerate p
     = match a_sample_rate a with Some r => r | None => 16 end
  /\ mtu p = match v_mtu v with Some m => m | None => 1316 end.
Proof.
  simpl. unfold lower_to, or_default.
  destruct (v_fps v) as [f|], (v_max_bit_rate v) as [b|];
    repeat match goal with
           | |- context [?x <? ?y] => destruct (Z.ltb_spec x y)
           end;
    repeat split; lia.
Qed.

(** ** Rewrites of the argument groups *)

(** X20: The width clamp belongs to the docker binary: it applies only where
    the constructor chose 'ffmpeg', never with a custom binary and never
    outside docker; and for a requested width of at most 720 it leaves
    the built groups as they are. *)
Theorem clamp_belongs_to_docker_binary (cfg : camera_config)
    (token : string) (ip : option string) (p : stream_params)
    (info : session_info) (g : arg_groups) :
  initial_args cfg token ip p info = Some g ->
  (docker_bundled cfg = true -> ffmpegPath cfg = "ffmpeg")
  /\ (forall path, custom_ffmpeg cfg = Some path ->
        ffmpegPath cfg = path /\ docker_rewrite cfg p g = g)
  /\ (isDocker (env cfg) = false -> docker_rewrite cfg p g = g)
  /\ (width p <= 720 -> docker_rewrite cfg p g = g).
Proof.
  intros Hg. unfold docker_rewrite, docker_bundled, ffmpegPath.
  split; [|split; [|split]].
  - destruct (custom_ffmpeg cfg), (isDocker (env cfg)); simpl;
      intros; congruence.
  - intros path ->. rewrite andb_false_r. split; reflexivity.
  - intros ->. reflexivity.
  - intros Hw. destruct (isDocker (env cfg) && _); [|reflexivity].
    unfold initial_args in Hg.
    destruct (video_info info) as [vm|]; [|discriminate].
    destruct (audio_info info) as [am|]; [|discriminate].
    injection Hg as <-. unfold clamp_width.
    cbn [sourceArgs videoArgs audioArgs]. rewrite Z.min_l by exact Hw.
    reflexivity.
Qed.

Lemma clamp_belongs_to_docker_binary_witness :
  ffmpegPath sample_cfg = "ffmpeg".
Proof.
  refine (proj1
    (clamp_belongs_to_docker_binary sample_cfg "token" (Some "52.1.2.3")
       (stream_parameters sample_details sample_video sample_audio)
       {| address := "192.168.1.20";
          video_info := Some {| m_port := 50000; m_srtp := [x01; x02; x03];
                                m_ssrc := 1193046 |};
          audio_info := Some {| m_port := 50000; m_srtp := [x01; x02; x03];
                                m_ssrc := 1193046 |} |}
       _ eq_refl) eq_refl).
Defined.

(** X21: For a request with the OPUS codec the audio group of the built
    arguments gets 'libopus' as its codec and loses its profile argument,
    the thirteen other audio arguments staying in order; the '-i' URL
    loses the first "&audioEncoding=AAC"; the video group is untouched.
    For any other codec, or none, nothing is rewritten. *)
Theorem opus_rewrite_built (cfg : camera_config) (token : string)
    (ip : option string) (p : stream_params) (info : session_info)
    (g : arg_groups) (a : audio_request) :
  initial_args cfg token ip p info = Some g ->
  (a_codec a <> Some "OPUS" -> codec_rewrite a g = g)
  /\ (a_codec a = Some "OPUS" ->
      videoArgs (codec_rewrite a g) = videoArgs g
      /\ audioArgs (codec_rewrite a g)
         = drop_flag "-profile:a"
             (set_first "-acodec" (VStr "libopus") (audioArgs g))
      /\ length (audioArgs (codec_rewrite a g)) = 13%nat
      /\ List.find (flag_is "-acodec") (audioArgs (codec_rewrite a g))
         = Some [VStr "-acodec"; VStr "libopus"]
      /\ sourceArgs (codec_rewrite a g)
         = [ [VStr "-re"];
             [VStr "-headers"; VStr ("Authorization: Bearer " +:+ token)];
             [VStr "-i";
              VStr (replace_first "&audioEncoding=AAC" ""
                      (source_url ip (uuid (cameraDetails cfg)) (width p)))] ]).
Proof.
  intros Hg. unfold initial_args in Hg.
  destruct (video_info info) as [vm|]; [|discriminate].
  destruct (audio_info info) as [am|]; [|discriminate].
  injection Hg as <-. unfold codec_rewrite, is_opus. split.
  - destruct (a_codec a) as [codec|]; [|reflexivity].
    intros Hne. destruct (String.eqb_spec codec "OPUS"); [|reflexivity].
    congruence.
  - intros ->. change (String.eqb "OPUS" "OPUS") with true. cbv iota.
    repeat split.
Qed.

Lemma opus_rewrite_built_witness :
  length
    (audioArgs
       (codec_rewrite
          {| a_max_bit_rate := None; a_sample_rate := None;
             a_codec := Some "OPUS" |}
          {| sourceArgs :=
               initial_sourceArgs "token" (Some "52.1.2.3") "cam-uuid"
                 (stream_parameters sample_details sample_video sample_audio);
             videoArgs :=
               initial_videoArgs
                 (stream_parameters sample_details sample_video sample_audio)
                 "192.168.1.20"
                 {| m_port := 50000; m_srtp := [x01; x02; x03];
                    m_ssrc := 1193046 |};
             audioArgs :=
               initial_audioArgs
                 (stream_parameters sample_details sample_video sample_audio)
                 "192.168.1.20"
                 {| m_port := 50000; m_srtp := [x01; x02; x03];
                    m_ssrc := 1193046 |} |}))
  = 13%nat.
Proof.
  destruct (opus_rewrite_built sample_cfg "token" (Some "52.1.2.3")
       (stream_parameters sample_details sample_video sample_audio)
       {| address := "192.168.1.20";
          video_info := Some {| m_port := 50000; m_srtp := [x01; x02; x03];
                                m_ssrc := 1193046 |};
          audio_info := Some {| m_port := 50000; m_srtp := [x01; x02; x03];
                                m_ssrc := 1193046 |} |}
       _
       {| a_max_bit_rate := None; a_sample_rate := None;
          a_codec := Some "OPUS" |}
       eq_refl) as [_ Hopus].
  destruct (Hopus eq_refl) as (_ & _ & Hlen & _). exact Hlen.
Defined.

Lemma find_drop_other key key' args :
  key <> key' ->
  List.find (flag_is key) (drop_flag key' args)
  = List.find (flag_is key) args.
Proof.
  intros Hne. unfold drop_flag. induction args as [|x rest IH]; [reflexivity|].
  simpl. destruct (flag_is key' x) eqn:E; simpl.
  - now rewrite (flag_is_other key key' x Hne E).
  - destruct (flag_is key x); [reflexivity | exact IH].
Qed.

Lemma drop_flag_clean key args :
  Forall (fun a => flag_is key a = false) (drop_flag key args).
Proof.
  apply List.Forall_forall. intros a Ha. unfold drop_flag in Ha.
  apply filter_In in Ha as [_ Ha]. now apply negb_true_iff in Ha.
Qed.

Lemma drop_flag_keeps_clean key key' args :
  Forall (fun a => flag_is key a = false) args ->
  Forall (fun a => flag_is key a = false) (drop_flag key' args).
Proof.
  intros H. apply List.Forall_forall. intros a Ha. unfold drop_flag in Ha.
  apply filter_In in Ha as [Ha _].
  exact (proj1 (List.Forall_forall _ _) H a Ha).
Qed.

Lemma find_first_flag key before a after :
  Forall (fun x => flag_is key x = false) before ->
  flag_is key a = true ->
  List.find (flag_is key) (before ++ a :: after) = Some a.
Proof.
  intros Hb Ha. induction Hb as [|x before Hx _ IH]; simpl.
  - now rewrite Ha.
  - now rewrite Hx.
Qed.

Lemma insert_before_first key x before a after :
  Forall (fun y => flag_is key y = false) before ->
  flag_is key a = true ->
  insert_before key x (before ++ a :: after) = before ++ x :: a :: after.
Proof.
  intros Hb Ha. induction Hb as [|y before Hy _ IH]; simpl.
  - now rewrite Ha.
  - now rewrite Hy, IH.
Qed.

(** X22: With hardware acceleration the decoder hint goes right in front of
    the first '-i' argument of the source group, wherever that is; the
    first '-vcodec' of the video group gets 'h264_omx' as its value; no
    '-tune' and no '-preset' argument is left in the video group; the
    audio group is untouched. *)
Theorem hwaccel_rewrite_shape (g : arg_groups) :
  Forall (fun a => flag_is "-tune" a = false /\ flag_is "-preset" a = false)
    (videoArgs (hwaccel_rewrite g))
  /\ audioArgs (hwaccel_rewrite g) = audioArgs g
  /\ (forall f old rest,
        List.find (flag_is "-vcodec") (videoArgs g) = Some (f :: old :: rest) ->
        List.find (flag_is "-vcodec") (videoArgs (hwaccel_rewrite g))
        = Some (f :: VStr "h264_omx" :: rest))
  /\ (forall before i_arg after,
        sourceArgs g = before ++ i_arg :: after ->
        Forall (fun a => flag_is "-i" a = false) before ->
        flag_is "-i" i_arg = true ->
        sourceArgs (hwaccel_rewrite g)
        = before ++ [VStr "-vcodec"; VStr "h264_mmal"] :: i_arg :: after).
Proof.
  unfold hwaccel_rewrite. cbn [sourceArgs videoArgs audioArgs].
  split; [|split; [reflexivity|split]].
  - pose proof (drop_flag_clean "-preset"
                  (drop_flag "-tune"
                     (set_first "-vcodec" (VStr "h264_omx") (videoArgs g))))
      as Hpreset.
    pose proof (drop_flag_keeps_clean "-tune" "-preset" _
                  (drop_flag_clean "-tune"
                     (set_first "-vcodec" (VStr "h264_omx") (videoArgs g))))
      as Htune.
    apply List.Forall_forall. intros a Ha. split.
    + exact (proj1 (List.Forall_forall _ _) Htune a Ha).
    + exact (proj1 (List.Forall_forall _ _) Hpreset a Ha).
  - intros f old rest Hfind.
    rewrite !find_drop_other by discriminate.
    unfold set_first.
    rewrite (find_alter_first_same "-vcodec" (set1 (VStr "h264_omx"))
               (videoArgs g) _ (fun x => flag_is_set1 "-vcodec" _ x) Hfind).
    reflexivity.
  - intros before i_arg after Hsrc Hbefore Hi. rewrite Hsrc.
    unfold splice_in. rewrite (find_first_flag "-i" before i_arg after Hbefore Hi).
    now apply insert_before_first.
Qed.

Lemma hwaccel_rewrite_shape_witness :
  sourceArgs
    (hwaccel_rewrite
       {| sourceArgs := [[VStr "-re"]; [VStr "-i"; VStr "url"]];
          videoArgs := [[VStr "-vcodec"; VStr "libx264"];
                        [VStr "-tune"; VStr "zerolatency"]];
          audioArgs := [] |})
  = [[VStr "-re"]; [VStr "-vcodec"; VStr "h264_mmal"]; [VStr "-i"; VStr "url"]].
Proof.
  refine (proj2 (proj2 (proj2
    (hwaccel_rewrite_shape
       {| sourceArgs := [[VStr "-re"]; [VStr "-i"; VStr "url"]];
          videoArgs := [[VStr "-vcodec"; VStr "libx264"];
                        [VStr "-tune"; VStr "zerolatency"]];
          audioArgs := [] |})))
    [[VStr "-re"]] [VStr "-i"; VStr "url"] [] eq_refl _ eq_refl).
  repeat constructor.
Defined.

(** ** Prepared sessions *)

Lemma prepare_media_agrees o e :
  exists r, prepare_media o e = Some r
            /\ media_agrees o (fst <$> r) (snd <$> r).
Proof.
  destruct o as [s|]; simpl.
  - destruct (make_ssrc_value e) as (ssrc & -> & _).
    eexists. split; [reflexivity|]. simpl. repeat split.
  - eexists. split; [reflexivity|]. exact I.
Qed.

(** X23: prepareStream answers with the local address and, for each media type
    of the request and no other, the port, key and salt it was given and
    a fresh SSRC; it stores under the session identifier the target
    address and, per media type, the same port and SSRC with key and salt
    concatenated, replacing what was pending under that identifier and
    leaving all other pending and all ongoing sessions alone. *)
Theorem prepare_records_session (rid : nat) (req : prepare_request)
    (ev ea : entropy) (my_ip : string) (is_v4 : bool) (c : camera) :
  let c' := prepareStream rid req ev ea my_ip is_v4 c in
  exists resp info,
    appended c c' = [Callback rid (CbOk (CbResponse resp))]
    /\ pendingSessions c' !! p_sessionID req = Some info
    /\ address info = targetAddress req
    /\ r_address resp = my_ip
    /\ r_type resp = (if is_v4 then "v4" else "v6")
    /\ media_agrees (p_video req) (r_video resp) (video_info info)
    /\ media_agrees (p_audio req) (r_audio resp) (audio_info info)
    /\ (forall sid, sid <> p_sessionID req ->
          pendingSessions c' !! sid = pendingSessions c !! sid)
    /\ ongoingSessions c' = ongoingSessions c
    /\ procs c' = procs c.
Proof.
  intros c'. subst c'. unfold prepareStream.
  destruct (prepare_media_agrees (p_video req) ev) as (v & -> & Hv).
  destruct (prepare_media_agrees (p_audio req) ea) as (a & -> & Ha).
  eexists. eexists. split; [appended_is|]. state_simpl.
  split; [apply lookup_insert_eq|].
  split; [reflexivity|]. split; [reflexivity|]. split; [reflexivity|].
  split; [exact Hv|]. split; [exact Ha|].
  split; [|split; reflexivity].
  intros sid Hne. apply lookup_insert_ne. congruence.
Qed.

(** ** The privacy gate, open *)

(** X24: A snapshot request that reaches the shutter check goes on to the
    lookup and the fetch when the setting for the alarm state is the
    string 'open', and also when the alarm state is none of OFF, HOME and
    AWAY, whatever the settings are.  When the alarm query fails, the
    request ends without any callback. *)
Theorem snapshot_gate_passes (cfg : camera_config) (rid : nat)
    (g : rate_gate) (w : Z) (token : string) (dns : dns_answer)
    (img : fetch_answer) (c : camera) :
  blocked g = false ->
  model (cameraDetails cfg) = "SS001" ->
  motionIsTriggered c = false ->
  (forall st,
      shutter_setting (cameraDetails cfg) st = Some (VStr "open")
      \/ shutter_setting (cameraDetails cfg) st = None ->
      handleSnapshotRequest cfg rid g w token (AlarmState st) dns img c
      = snapshot_fetch cfg rid w token dns img (emit AlarmQuery c))
  /\ (forall err,
        appended c
          (handleSnapshotRequest cfg rid g w token (AlarmFails err) dns img c)
        = [AlarmQuery; Uncaught]
        /\ callbacks rid
             (handleSnapshotRequest cfg rid g w token (AlarmFails err) dns
                img c)
           = callbacks rid c).
Proof.
  intros Hgate Hmodel Hmotion. unfold handleSnapshotRequest.
  rewrite Hgate, Hmotion, Hmodel. change (String.eqb "SS001" "SS001") with true.
  cbn [negb andb]. split.
  - intros st Hset.
    assert (Hopen : shutter_closed (cameraDetails cfg) st = false).
    { unfold shutter_setting in Hset. unfold shutter_closed.
      destruct (String.eqb st "OFF"); [|destruct (String.eqb st "HOME");
        [|destruct (String.eqb st "AWAY"); [|reflexivity]]];
        destruct Hset as [[= ->]|[=]]; reflexivity. }
    now rewrite Hopen.
  - intros err. split; [appended_is|].
    erewrite callbacks_app by trace_eq. simpl. lia.
Qed.

Lemma snapshot_gate_passes_witness :
  blocked open_gate = false
  /\ shutter_setting sample_details "ALARM" = None
  /\ trace
       (handleSnapshotRequest sample_cfg 0 open_gate 640 "token"
          (AlarmState "ALARM") (Resolved "52.1.2.3") (Image [x01]) construct)
     = [AlarmQuery; DnsLookup "media.simplisafe.com";
        Fetch "https://52.1.2.3/v1/cam-uuid/mjpg?x=640&fr=1" "Bearer token";
        Callback 0 (CbOk (CbImage [x01]))].
Proof.
  split; [reflexivity|]. split; [reflexivity|].
  rewrite (proj1 (snapshot_gate_passes sample_cfg 0 open_gate 640 "token"
                    (Resolved "52.1.2.3") (Image [x01]) construct
                    eq_refl eq_refl eq_refl) "ALARM" (or_intror eq_refl)).
  reflexivity.
Defined.

(** ** Who changes the session maps *)

(** X25: Only prepareStream and handleStreamRequest change the maps of pending
    and ongoing sessions.  In particular the output, the error and the
    exit of a transcoder leave its ongoing session in place. *)
Theorem sessions_change_origin (cfg : camera_config) (c : camera) (i : input) :
  pendingSessions (step cfg c i) <> pendingSessions c
  \/ ongoingSessions (step cfg c i) <> ongoingSessions c ->
  (exists rid req ev ea my_ip is_v4, i = InPrepare rid req ev ea my_ip is_v4)
  \/ (exists rid req g token dns, i = InStream rid req g token dns).
Proof.
  intros Hchange.
  destruct i as [rid|d|rid g v|rid g w token alarm dns img
                |rid req ev ea my_ip is_v4|rid req g token dns|pid|pid err
                |pid code|ans|ev data|];
    try (match type of Hchange with
         | context [step cfg c ?i] =>
             destruct (other_maps cfg c i I) as [Hp Ho]
         end; tauto).
  - left. do 6 eexists. reflexivity.
  - right. do 5 eexists. reflexivity.
Qed.

Lemma sessions_change_origin_witness :
  ongoingSessions
    (step sample_cfg sample_streaming
       (InStream 5 sample_stop open_gate "token" (Resolved "52.1.2.3")))
  <> ongoingSessions sample_streaming
  /\ ongoingSessions (step sample_cfg sample_streaming (InClose 0 (Some 1)))
     = ongoingSessions sample_streaming.
Proof.
  assert (Hne : ongoingSessions
    (step sample_cfg sample_streaming
       (InStream 5 sample_stop open_gate "token" (Resolved "52.1.2.3")))
    <> ongoingSessions sample_streaming).
  { intros H. apply (f_equal (fun m => m !! "s1")) in H. discriminate. }
  split; [exact Hne|].
  destruct (sessions_change_origin sample_cfg sample_streaming _
              (or_intror Hne)) as [_|_]; reflexivity.
Defined.
